(** * Membership reconciliation of the room server, and the storage dispatch
      of the federation sender

    A shallow embedding of [roomserver/internal]'s membership updater
    ([updateMemberships] and the functions it calls) and of
    [federationsender/storage.NewDatabase], with the properties their
    specification states about them. *)

From Stdlib Require Import Ascii.
From stdpp Require Import base numbers list strings gmap fin_maps.

(** ** Data model: [types.StateKeyTuple], [types.StateEntry], [stateChange] *)

(** The numeric identifiers are [int64] in the source.  No arithmetic is ever
    done on them (they are only compared, with each other and with [0]), so
    they are embedded as integers. *)
Abbreviation EventTypeNID := Z.
Abbreviation EventStateKeyNID := Z.
Abbreviation EventNID := Z.

Record StateKeyTuple : Type := mkStateKeyTuple {
  skt_EventTypeNID : EventTypeNID;
  skt_EventStateKeyNID : EventStateKeyNID
}.

Record StateEntry : Type := mkStateEntry {
  se_StateKeyTuple : StateKeyTuple;
  se_EventNID : EventNID
}.

(** [type stateChange struct { types.StateKeyTuple; removedEventNID; addedEventNID }] *)
Record stateChange : Type := mkStateChange {
  sc_StateKeyTuple : StateKeyTuple;
  removedEventNID : EventNID;
  addedEventNID : EventNID
}.

#[global] Instance StateKeyTuple_eq_dec : EqDecision StateKeyTuple.
Proof. solve_decision. Defined.

#[global] Instance StateKeyTuple_countable : Countable StateKeyTuple.
Proof.
  refine (inj_countable'
            (λ t, (skt_EventTypeNID t, skt_EventStateKeyNID t))
            (λ p, mkStateKeyTuple p.1 p.2) _).
  by intros [].
Defined.

#[global] Instance StateEntry_eq_dec : EqDecision StateEntry.
Proof. solve_decision. Defined.

#[global] Instance stateChange_eq_dec : EqDecision stateChange.
Proof. solve_decision. Defined.

(** ** Iterating over a Go map

    [for _, change := range tuples] visits every entry of the map exactly
    once, in an order the language leaves unspecified.  The order is a
    parameter of the development: any function that lists the entries of a
    map up to a permutation. *)
Class MapRange : Type := {
  range_map : gmap StateKeyTuple stateChange → list (StateKeyTuple * stateChange);
  range_map_perm : ∀ m, range_map m ≡ₚ map_to_list m
}.

(** One admissible order, used to run the functions on concrete inputs. *)
Definition canonical_range : MapRange :=
  {| range_map := map_to_list; range_map_perm := λ m, reflexivity _ |}.

(** ** The change pairer *)

(** Body of the first loop of [pairUpChanges], for one added entry. *)
Definition pair_added (tuples : gmap StateKeyTuple stateChange) (add : StateEntry)
  : gmap StateKeyTuple stateChange :=
  match tuples !! se_StateKeyTuple add with
  | Some change =>
      <[se_StateKeyTuple add :=
          mkStateChange (sc_StateKeyTuple change) (removedEventNID change) (se_EventNID add)]>
        tuples
  | None =>
      <[se_StateKeyTuple add := mkStateChange (se_StateKeyTuple add) 0 (se_EventNID add)]>
        tuples
  end.

(** Body of the second loop of [pairUpChanges], for one removed entry. *)
Definition pair_removed (tuples : gmap StateKeyTuple stateChange) (remove : StateEntry)
  : gmap StateKeyTuple stateChange :=
  match tuples !! se_StateKeyTuple remove with
  | Some change =>
      <[se_StateKeyTuple remove :=
          mkStateChange (sc_StateKeyTuple change) (se_EventNID remove) (addedEventNID change)]>
        tuples
  | None =>
      <[se_StateKeyTuple remove :=
          mkStateChange (se_StateKeyTuple remove) (se_EventNID remove) 0]>
        tuples
  end.

(** The map [tuples] once both loops have run. *)
Definition paired_tuples (removed added : list StateEntry)
  : gmap StateKeyTuple stateChange :=
  foldl pair_removed (foldl pair_added ∅ added) removed.

Section ChangePairer.
Context `{!MapRange}.

Definition pairUpChanges (removed added : list StateEntry) : list stateChange :=
  let tuples := paired_tuples removed added in
  foldl (λ changes kv, changes ++ [kv.2]) [] (range_map tuples).

End ChangePairer.

(** ** What the pairer is meant to compute *)

(** The entry of a collection that holds a tuple: the last one, should the
    collection hold several. *)
Definition entry_for (t : StateKeyTuple) (entries : list StateEntry) : option StateEntry :=
  last (filter (λ e, se_StateKeyTuple e = t) entries).

(** Its event identifier, [0] when the collection has no entry for the tuple. *)
Definition nid_for (t : StateKeyTuple) (entries : list StateEntry) : EventNID :=
  from_option se_EventNID 0%Z (entry_for t entries).

Definition tuples_of (entries : list StateEntry) : list StateKeyTuple :=
  se_StateKeyTuple <$> entries.

(** ** Go values: errors, results, panics *)

(** An [error] value: one made by [errors.New] in this package, or one handed
    back by a collaborator (the event store, the update handle, an event). *)
Inductive error : Type :=
| errors_New (text : string)
| collaborator_error (text : string).

(** The [(value, error)] pair a fallible collaborator returns; the value is
    only ever read when the error is [nil]. *)
Inductive result (A : Type) : Type :=
| Ok (a : A)
| Err (err : error).
Arguments Ok {A} a.
Arguments Err {A} err.

(** What a panic carries.  [invalid_membership m] stands for the value
    [fmt.Errorf("input: membership %q is not one of the allowed values", m)]. *)
Inductive panic_value : Type :=
| nil_dereference
| invalid_membership (m : string).

(** A call either returns to its caller or panics. *)
Inductive outcome (A : Type) : Type :=
| Returns (a : A)
| Panics (p : panic_value).
Arguments Returns {A} a.
Arguments Panics {A} p.

(** ** The events and output records of the collaborating packages *)

Module gomatrixserverlib.

Definition RoomVersion : Type := string.

(** The membership values of the protocol. *)
Definition Invite : string := "invite".
Definition Join : string := "join".
Definition Leave : string := "leave".
Definition Ban : string := "ban".

(** An event, as far as this package observes it: what its accessor methods
    return.  [StateKey] is a [*string] in the source. *)
Record Event : Type := mkEvent {
  Membership : result string;
  Sender : string;
  EventID : string;
  StateKey : option string
}.

Record HeaderedEvent : Type := mkHeaderedEvent {
  headerRoomVersion : RoomVersion;
  headerEvent : Event
}.

Definition Headered (e : Event) (roomVersion : RoomVersion) : HeaderedEvent :=
  mkHeaderedEvent roomVersion e.

End gomatrixserverlib.

Module types.

(** [types.Event]: an event together with its numeric identifier. *)
Record Event : Type := mkEvent {
  EventNID : Z;
  Event_ : gomatrixserverlib.Event
}.

End types.

Module api.

Inductive OutputType : Type :=
| OutputTypeNewRoomEvent
| OutputTypeNewInviteEvent
| OutputTypeRetireInviteEvent.

#[global] Instance OutputType_eq_dec : EqDecision OutputType.
Proof. solve_decision. Defined.

Record OutputNewInviteEvent : Type := mkOutputNewInviteEvent {
  RoomVersion : gomatrixserverlib.RoomVersion;
  Event : gomatrixserverlib.HeaderedEvent
}.

Record OutputRetireInviteEvent : Type := mkOutputRetireInviteEvent {
  EventID : string;
  Membership : string;
  RetiredByEventID : string;
  TargetUserID : string
}.

(** The fields of [api.OutputEvent] this package sets; the two contents are
    pointers in the source. *)
Record OutputEvent : Type := mkOutputEvent {
  Type' : OutputType;
  NewInviteEvent : option OutputNewInviteEvent;
  RetireInviteEvent : option OutputRetireInviteEvent
}.

End api.

(** ** Calls into the external store

    The store (the database and the transaction the updater runs in) is a
    state of type [World] threaded through every call.  A computation takes
    the store, and either returns or panics, leaving a store behind. *)
Definition M (World A : Type) : Type := World → outcome A * World.

#[global] Instance M_ret {World} : MRet (M World) :=
  λ A a w, (Returns a, w).

#[global] Instance M_bind {World} : MBind (M World) :=
  λ A B k m w,
    match m w with
    | (Returns a, w1) => k a w1
    | (Panics p, w1) => (Panics p, w1)
    end.

Definition panic {World A} (p : panic_value) : M World A :=
  λ w, (Panics p, w).

(** A call that may change the store. *)
Definition call {World X} (op : World → X * World) : M World X :=
  λ w, let (x, w1) := op w in (Returns x, w1).

(** A call that only reads it. *)
Definition read {World X} (get : World → X) : M World X :=
  λ w, (Returns (get w), w).

(** Going through a pointer. *)
Definition deref {World A} (p : option A) : M World A :=
  match p with
  | Some a => mret a
  | None => panic nil_dereference
  end.

(** What the functions of the package return: [([]api.OutputEvent, error)],
    a [nil] slice being the empty list and a [nil] error [None]. *)
Abbreviation GoReturn := (list api.OutputEvent * option error)%type.

(** [types.MembershipUpdater]: the per-participant update handle. *)
Class MembershipUpdater (World Handle : Type) : Type := {
  IsJoin : Handle → World → bool;
  IsLeave : Handle → World → bool;
  SetToInvite : Handle → gomatrixserverlib.Event → World → result bool * World;
  SetToJoin : Handle → string → string → bool → World → result (list string) * World;
  SetToLeave : Handle → string → string → World → result (list string) * World
}.

(** [types.RoomRecentEventsUpdater], as far as it is used here:
    [updater.MembershipUpdater(targetUserNID)] and [updater.RoomVersion()]. *)
Class RoomRecentEventsUpdater (World Handle : Type) : Type := {
  OpenMembershipUpdater : EventStateKeyNID → World → result Handle * World;
  RoomVersion : World → gomatrixserverlib.RoomVersion
}.

(** [storage.Database], as far as it is used here: [db.Events(ctx, eventNIDs)]. *)
Class Database (World : Type) : Type := {
  Events : list EventNID → World → result (list types.Event) * World
}.

(** Modelled from the spec: [eventMap.lookup] is declared in another file of
    the package.  It resolves an identifier to the loaded event that carries
    it; an identifier that was not loaded yields [nil], not an error. *)
Definition lookup_event (events : list types.Event) (eventNID : EventNID)
  : option types.Event :=
  List.find (λ ev, bool_decide (types.EventNID ev = eventNID)) events.

(** ** The transition handlers *)

Section MembershipUpdate.
Context {World Handle : Type}.
Context `{!MembershipUpdater World Handle}.
Context `{!RoomRecentEventsUpdater World Handle}.
Context `{!Database World}.
Context `{!MapRange}.
(** [types.MRoomMemberNID], the numeric identifier of the membership event
    type, is a constant of another package. *)
Variable MRoomMemberNID : EventTypeNID.

Definition updateToInviteMembership
    (mu : Handle) (add : option gomatrixserverlib.Event)
    (updates : list api.OutputEvent) (roomVersion : gomatrixserverlib.RoomVersion)
  : M World GoReturn :=
  ev ← deref add;
  r ← call (SetToInvite mu ev);
  match r with
  | Err err => mret ([], Some err)
  | Ok needsSending =>
      if (needsSending : bool) then
        let onie := api.mkOutputNewInviteEvent
                      roomVersion (gomatrixserverlib.Headered ev roomVersion) in
        mret (updates ++ [api.mkOutputEvent api.OutputTypeNewInviteEvent (Some onie) None],
              None)
      else mret (updates, None)
  end.

(** The loop [for _, eventID := range retired] that ends both
    [updateToJoinMembership] and [updateToLeaveMembership]; the two differ in
    the membership they write into the record only. *)
Fixpoint append_retired
    (add : gomatrixserverlib.Event) (membership : string)
    (retired : list string) (updates : list api.OutputEvent)
  : M World (list api.OutputEvent) :=
  match retired with
  | [] => mret updates
  | eventID :: retired' =>
      target ← deref (gomatrixserverlib.StateKey add);
      let orie := api.mkOutputRetireInviteEvent
                    eventID membership (gomatrixserverlib.EventID add) target in
      append_retired add membership retired'
        (updates ++ [api.mkOutputEvent api.OutputTypeRetireInviteEvent None (Some orie)])
  end.

Definition updateToJoinMembership
    (mu : Handle) (add : option gomatrixserverlib.Event)
    (updates : list api.OutputEvent)
  : M World GoReturn :=
  isJoin ← read (IsJoin mu);
  if (isJoin : bool) then
    ev ← deref add;
    r ← call (SetToJoin mu (gomatrixserverlib.Sender ev) (gomatrixserverlib.EventID ev) true);
    match r with
    | Err err => mret ([], Some err)
    | Ok _ => mret (updates, None)
    end
  else
    ev ← deref add;
    r ← call (SetToJoin mu (gomatrixserverlib.Sender ev) (gomatrixserverlib.EventID ev) false);
    match r with
    | Err err => mret ([], Some err)
    | Ok retired =>
        updates' ← append_retired ev gomatrixserverlib.Join retired updates;
        mret (updates', None)
    end.

Definition updateToLeaveMembership
    (mu : Handle) (add : option gomatrixserverlib.Event)
    (newMembership : string) (updates : list api.OutputEvent)
  : M World GoReturn :=
  isLeave ← read (IsLeave mu);
  if (isLeave : bool) then mret (updates, None)
  else
    ev ← deref add;
    r ← call (SetToLeave mu (gomatrixserverlib.Sender ev) (gomatrixserverlib.EventID ev));
    match r with
    | Err err => mret ([], Some err)
    | Ok retired =>
        updates' ← append_retired ev newMembership retired updates;
        mret (updates', None)
    end.

(** ** The membership resolver *)

Definition updateMembership
    (targetUserNID : EventStateKeyNID)
    (remove add : option gomatrixserverlib.Event)
    (updates : list api.OutputEvent)
  : M World GoReturn :=
  match (match remove with
         | Some ev => gomatrixserverlib.Membership ev
         | None => Ok gomatrixserverlib.Leave
         end) with
  | Err err => mret ([], Some err)
  | Ok oldMembership =>
      match (match add with
             | Some ev => gomatrixserverlib.Membership ev
             | None => Ok gomatrixserverlib.Leave
             end) with
      | Err err => mret ([], Some err)
      | Ok newMembership =>
          if bool_decide (oldMembership = newMembership)
             && negb (bool_decide (newMembership = gomatrixserverlib.Join))
          then mret (updates, None)
          else
            match add with
            | None => mret (updates, Some (errors_New "add should not be nil"))
            | Some _ =>
                r ← call (OpenMembershipUpdater targetUserNID);
                match r with
                | Err err => mret ([], Some err)
                | Ok mu =>
                    if bool_decide (newMembership = gomatrixserverlib.Invite) then
                      roomVersion ← read RoomVersion;
                      updateToInviteMembership mu add updates roomVersion
                    else if bool_decide (newMembership = gomatrixserverlib.Join) then
                      updateToJoinMembership mu add updates
                    else if bool_decide (newMembership = gomatrixserverlib.Leave)
                            || bool_decide (newMembership = gomatrixserverlib.Ban) then
                      updateToLeaveMembership mu add newMembership updates
                    else panic (invalid_membership newMembership)
                end
            end
      end
  end.

Definition membershipChanges (removed added : list StateEntry) : list stateChange :=
  let changes := pairUpChanges removed added in
  foldl (λ result c,
           if bool_decide (skt_EventTypeNID (sc_StateKeyTuple c) = MRoomMemberNID)
           then result ++ [c] else result)
        [] changes.

(** The first loop of [updateMemberships]: the identifiers to load. *)
Definition collect_eventNIDs (changes : list stateChange) : list EventNID :=
  foldl (λ eventNIDs change,
           let eventNIDs :=
             if bool_decide (addedEventNID change ≠ 0%Z)
             then eventNIDs ++ [addedEventNID change] else eventNIDs in
           if bool_decide (removedEventNID change ≠ 0%Z)
           then eventNIDs ++ [removedEventNID change] else eventNIDs)
        [] changes.

(** The event a side of a change resolves to: [nil] when the side is unset,
    or when the identifier was not loaded. *)
Definition resolve_side (events : list types.Event) (eventNID : EventNID)
  : option gomatrixserverlib.Event :=
  if bool_decide (eventNID ≠ 0%Z) then
    match lookup_event events eventNID with
    | Some ev => Some (types.Event_ ev)
    | None => None
    end
  else None.

(** The second loop of [updateMemberships]. *)
Fixpoint updateMemberships_loop
    (events : list types.Event) (changes : list stateChange)
    (updates : list api.OutputEvent)
  : M World GoReturn :=
  match changes with
  | [] => mret (updates, None)
  | change :: changes' =>
      let targetUserNID := skt_EventStateKeyNID (sc_StateKeyTuple change) in
      let re := resolve_side events (removedEventNID change) in
      let ae := resolve_side events (addedEventNID change) in
      ret ← updateMembership targetUserNID re ae updates;
      match ret with
      | (_, Some err) => mret ([], Some err)
      | (updates', None) => updateMemberships_loop events changes' updates'
      end
  end.

Definition updateMemberships (removed added : list StateEntry) : M World GoReturn :=
  let changes := membershipChanges removed added in
  let eventNIDs := collect_eventNIDs changes in
  r ← call (Events eventNIDs);
  match r with
  | Err err => mret ([], Some err)
  | Ok events => updateMemberships_loop events changes []
  end.

End MembershipUpdate.

(** ** Opening the federation sender's database *)

Module storage.

(** [net/url.URL], of which only the scheme is read. *)
Record URL : Type := mkURL { Scheme : string }.

Section NewDatabase.
(** [url.Parse] belongs to the standard library of the language, and the two
    constructors to the packages [sqlite3] and [postgres]. *)
Context {Database DbProperties : Type}.
Variable url_Parse : string → result URL.
Variable sqlite3_NewDatabase : string → result Database.
Variable postgres_NewDatabase : string → DbProperties → result Database.

Definition NewDatabase (dataSourceName : string) (dbProperties : DbProperties)
  : result Database :=
  match url_Parse dataSourceName with
  | Err _ => postgres_NewDatabase dataSourceName dbProperties
  | Ok uri =>
      if bool_decide (Scheme uri = "file") then
        sqlite3_NewDatabase dataSourceName
      else if bool_decide (Scheme uri = "postgres") then
        postgres_NewDatabase dataSourceName dbProperties
      else
        postgres_NewDatabase dataSourceName dbProperties
  end.

End NewDatabase.

(** The data source parses as a URL whose scheme is [file]. *)
Definition has_file_scheme (url_Parse : string → result URL) (dataSourceName : string)
  : Prop :=
  ∃ uri, url_Parse dataSourceName = Ok uri ∧ Scheme uri = "file".

(** Which database was opened, and with what: the two constructors told
    apart by what they return. *)
Inductive opened (DbProperties : Type) : Type :=
| opened_sqlite3 (dataSourceName : string)
| opened_postgres (dataSourceName : string) (dbProperties : DbProperties).
Arguments opened_sqlite3 {DbProperties} dataSourceName.
Arguments opened_postgres {DbProperties} dataSourceName dbProperties.

(** [NewDatabase], run with constructors that succeed and tell what they
    opened. *)
Definition NewDatabase_opens {DbProperties : Type}
    (url_Parse : string → result URL)
    (dataSourceName : string) (dbProperties : DbProperties)
  : result (opened DbProperties) :=
  NewDatabase url_Parse
    (λ dsn, Ok (opened_sqlite3 dsn))
    (λ dsn props, Ok (opened_postgres dsn props))
    dataSourceName dbProperties.

(** A stand-in for [url.Parse], for running [NewDatabase]: the scheme is what
    precedes the first colon, and a data source without a colon has none. *)
Fixpoint scheme_of (s : string) : option string :=
  match s with
  | EmptyString => None
  | String c rest =>
      if Ascii.eqb c ":"%char then Some EmptyString
      else String c <$> scheme_of rest
  end.

Definition sample_Parse (s : string) : result URL :=
  match s with
  | String "%"%char _ => Err (collaborator_error "invalid URL escape")
  | _ => Ok (mkURL (default EmptyString (scheme_of s)))
  end.

End storage.

(** ** A store to run the updater against *)

Module reference.

Inductive membershipState : Type :=
| membershipStateNone
| membershipStateInvite
| membershipStateJoin
| membershipStateLeaveOrBan.

#[global] Instance membershipState_eq_dec : EqDecision membershipState.
Proof. solve_decision. Defined.

(** The row of one participant of the room. *)
Record participant : Type := mkParticipant {
  membership : membershipState;
  (** the event the membership was last set by *)
  membership_event : string;
  (** every invite recorded for the participant, retired or not *)
  recorded_invites : list string;
  (** the invites not retired yet *)
  outstanding_invites : list string
}.

Definition new_participant : participant :=
  mkParticipant membershipStateNone EmptyString [] [].

(** The calls the updater makes into the store, in the order it makes them. *)
Inductive store_call : Type :=
| called_Events (eventNIDs : list EventNID)
| called_MembershipUpdater (targetUserNID : EventStateKeyNID)
| called_SetToInvite (targetUserNID : EventStateKeyNID) (eventID : string)
| called_SetToJoin (targetUserNID : EventStateKeyNID) (sender eventID : string) (isUpdate : bool)
| called_SetToLeave (targetUserNID : EventStateKeyNID) (sender eventID : string).

Record World : Type := mkWorld {
  participants : gmap Z participant;
  stored_events : list types.Event;
  room_version : gomatrixserverlib.RoomVersion;
  (** how many more calls the store serves before it starts failing;
      [None] for a store that never fails *)
  calls_left : option nat;
  calls : list store_call
}.

Definition row (w : World) (target : Z) : participant :=
  default new_participant (participants w !! target).

Definition store_error : error := collaborator_error "store unavailable".

(** Every call is logged; it is served when the store still serves calls. *)
Definition attempt {A} (c : store_call) (serve : World → A * gmap Z participant)
    (w : World) : result A * World :=
  match calls_left w with
  | Some O =>
      (Err store_error,
       mkWorld (participants w) (stored_events w) (room_version w) (Some O)
               (calls w ++ [c]))
  | budget =>
      let (a, rows) := serve w in
      (Ok a,
       mkWorld rows (stored_events w) (room_version w) (Nat.pred <$> budget)
               (calls w ++ [c]))
  end.

(** Modelled from the spec: the update handle is implemented by the storage
    packages.  "Set to invite" records the invite and reports whether it is
    a new one; "set to join" marks the participant joined and, unless it is
    an update of a participant who is joined already, retires the
    outstanding invites and returns them; "set to leave" marks the
    participant left or banned and returns the outstanding invites it
    retired. *)
#[global] Instance reference_handle : MembershipUpdater World Z := {|
  IsJoin target w := bool_decide (membership (row w target) = membershipStateJoin);
  IsLeave target w := bool_decide (membership (row w target) = membershipStateLeaveOrBan);
  SetToInvite target ev :=
    attempt (called_SetToInvite target (gomatrixserverlib.EventID ev))
      (λ w,
         let p := row w target in
         let eventID := gomatrixserverlib.EventID ev in
         if bool_decide (eventID ∈ recorded_invites p) then
           (false,
            <[target := mkParticipant membershipStateInvite (membership_event p)
                          (recorded_invites p) (outstanding_invites p)]>
              (participants w))
         else
           (true,
            <[target := mkParticipant membershipStateInvite eventID
                          (recorded_invites p ++ [eventID])
                          (outstanding_invites p ++ [eventID])]>
              (participants w)));
  SetToJoin target sender eventID isUpdate :=
    attempt (called_SetToJoin target sender eventID isUpdate)
      (λ w,
         let p := row w target in
         if isUpdate then
           ([],
            <[target := mkParticipant membershipStateJoin eventID
                          (recorded_invites p) (outstanding_invites p)]>
              (participants w))
         else
           (outstanding_invites p,
            <[target := mkParticipant membershipStateJoin eventID
                          (recorded_invites p) []]>
              (participants w)));
  SetToLeave target sender eventID :=
    attempt (called_SetToLeave target sender eventID)
      (λ w,
         let p := row w target in
         (outstanding_invites p,
          <[target := mkParticipant membershipStateLeaveOrBan eventID
                        (recorded_invites p) []]>
            (participants w)))
|}.

(** Modelled from the spec: opening a handle gives access to the row of the
    target participant, and the updater knows the room's protocol version. *)
#[global] Instance reference_updater : RoomRecentEventsUpdater World Z := {|
  OpenMembershipUpdater target :=
    attempt (called_MembershipUpdater target) (λ w, (target, participants w));
  RoomVersion := room_version
|}.

(** Modelled from the spec: the batch load returns the stored events among
    the identifiers asked for, and leaves out the unknown identifiers. *)
#[global] Instance reference_database : Database World := {|
  Events eventNIDs :=
    attempt (called_Events eventNIDs)
      (λ w,
         (List.filter (λ ev, bool_decide (types.EventNID ev ∈ eventNIDs)) (stored_events w),
          participants w))
|}.

(** *** A sample room

    Bob invites Alice, who joins and later leaves or is banned.  Two more
    events: one with a membership outside the enumeration, and one whose
    membership cannot be read. *)
Definition alice : string := "@alice:example.org".
Definition bob : string := "@bob:example.org".
Definition alice_NID : EventStateKeyNID := 42.

Definition invite_event : gomatrixserverlib.Event :=
  gomatrixserverlib.mkEvent (Ok gomatrixserverlib.Invite) bob "$invite" (Some alice).
Definition join_event : gomatrixserverlib.Event :=
  gomatrixserverlib.mkEvent (Ok gomatrixserverlib.Join) alice "$join" (Some alice).
Definition leave_event : gomatrixserverlib.Event :=
  gomatrixserverlib.mkEvent (Ok gomatrixserverlib.Leave) alice "$leave" (Some alice).
Definition ban_event : gomatrixserverlib.Event :=
  gomatrixserverlib.mkEvent (Ok gomatrixserverlib.Ban) bob "$ban" (Some alice).
Definition knock_event : gomatrixserverlib.Event :=
  gomatrixserverlib.mkEvent (Ok "knock") alice "$knock" (Some alice).
Definition unreadable_error : error :=
  collaborator_error "gomatrixserverlib: not an m.room.member event".
Definition unreadable_event : gomatrixserverlib.Event :=
  gomatrixserverlib.mkEvent (Err unreadable_error) alice "$topic" (Some alice).

(** A join event that carries no state key. *)
Definition keyless_join_event : gomatrixserverlib.Event :=
  gomatrixserverlib.mkEvent (Ok gomatrixserverlib.Join) alice "$keyless" None.

Definition sample_events : list types.Event :=
  [types.mkEvent 11 invite_event; types.mkEvent 12 join_event;
   types.mkEvent 13 leave_event; types.mkEvent 14 ban_event;
   types.mkEvent 15 knock_event; types.mkEvent 16 unreadable_event].

(** The identifier of the membership event type in the sample room, and the
    state slot of Alice's membership. *)
Definition sample_MRoomMemberNID : EventTypeNID := 5.
Definition alice_slot : StateKeyTuple := mkStateKeyTuple sample_MRoomMemberNID alice_NID.

(** The room with the sample events stored: Alice's row and the calls made so
    far, in a store that serves [budget] more calls. *)
Definition room (rows : gmap Z participant) (budget : option nat)
    (made : list store_call) : World :=
  mkWorld rows sample_events "5" budget made.

Definition fresh_room : World := room ∅ None [].

Definition invited_row : participant :=
  mkParticipant membershipStateInvite "$invite" ["$invite"] ["$invite"].
Definition joined_row : participant :=
  mkParticipant membershipStateJoin "$join" ["$invite"] [].
Definition banned_row : participant :=
  mkParticipant membershipStateLeaveOrBan "$ban" ["$invite"] [].

End reference.

(** ** The vocabulary of the specification *)

(** The "new invite" record for an invite event. *)
Definition new_invite_record
    (ev : gomatrixserverlib.Event) (roomVersion : gomatrixserverlib.RoomVersion)
  : api.OutputEvent :=
  api.mkOutputEvent api.OutputTypeNewInviteEvent
    (Some (api.mkOutputNewInviteEvent roomVersion
             (gomatrixserverlib.Headered ev roomVersion)))
    None.

(** The "retire invite" record for one retired invite: the new membership,
    the event that retires the invite, the target participant, and the
    retired invite itself. *)
Definition retire_invite_record
    (membership retiredBy target eventID : string) : api.OutputEvent :=
  api.mkOutputEvent api.OutputTypeRetireInviteEvent
    None
    (Some (api.mkOutputRetireInviteEvent eventID membership retiredBy target)).

(** How many records of a given type a list of output records holds. *)
Definition count_records (type : api.OutputType) (records : list api.OutputEvent) : nat :=
  length (filter (λ o, api.Type' o = type) records).

(** The membership classification of an optional event: the membership the
    event declares, and leave when there is no event. *)
Definition classify (ev : option gomatrixserverlib.Event) : result string :=
  match ev with
  | Some e => gomatrixserverlib.Membership e
  | None => Ok gomatrixserverlib.Leave
  end.

(** The membership values of the enumeration. *)
Definition known_membership (m : string) : Prop :=
  m = gomatrixserverlib.Invite ∨ m = gomatrixserverlib.Join ∨
  m = gomatrixserverlib.Leave ∨ m = gomatrixserverlib.Ban.

Section Failures.
Context {World Handle : Type}.
Context `{!MembershipUpdater World Handle}.
Context `{!RoomRecentEventsUpdater World Handle}.

(** The steps of the reconciliation of one change that can fail: parsing the
    membership of the removed or of the added event, the check that an added
    event resolved, opening the handle, and the operations of the handle.
    [step_fails target remove add w err w'] reads: started in the store [w],
    the step fails with [err] and leaves the store [w']. *)
Inductive step_fails (target : EventStateKeyNID)
    (remove add : option gomatrixserverlib.Event) (w : World)
  : error → World → Prop :=
| removed_unparsable err :
    classify remove = Err err →
    step_fails target remove add w err w
| added_unparsable old err :
    classify remove = Ok old →
    classify add = Err err →
    step_fails target remove add w err w
| added_missing old :
    classify remove = Ok old →
    old ≠ gomatrixserverlib.Leave →
    add = None →
    step_fails target remove add w (errors_New "add should not be nil") w
| handle_unavailable old new ae err w' :
    classify remove = Ok old →
    add = Some ae →
    gomatrixserverlib.Membership ae = Ok new →
    old ≠ new ∨ new = gomatrixserverlib.Join →
    OpenMembershipUpdater target w = (Err err, w') →
    step_fails target remove add w err w'
| set_to_invite_fails old ae mu w1 err w' :
    classify remove = Ok old →
    add = Some ae →
    gomatrixserverlib.Membership ae = Ok gomatrixserverlib.Invite →
    old ≠ gomatrixserverlib.Invite →
    OpenMembershipUpdater target w = (Ok mu, w1) →
    SetToInvite mu ae w1 = (Err err, w') →
    step_fails target remove add w err w'
| set_to_join_fails old ae mu w1 err w' :
    classify remove = Ok old →
    add = Some ae →
    gomatrixserverlib.Membership ae = Ok gomatrixserverlib.Join →
    OpenMembershipUpdater target w = (Ok mu, w1) →
    SetToJoin mu (gomatrixserverlib.Sender ae) (gomatrixserverlib.EventID ae)
              (IsJoin mu w1) w1 = (Err err, w') →
    step_fails target remove add w err w'
| set_to_leave_fails old new ae mu w1 err w' :
    classify remove = Ok old →
    add = Some ae →
    gomatrixserverlib.Membership ae = Ok new →
    new = gomatrixserverlib.Leave ∨ new = gomatrixserverlib.Ban →
    old ≠ new →
    OpenMembershipUpdater target w = (Ok mu, w1) →
    IsLeave mu w1 = false →
    SetToLeave mu (gomatrixserverlib.Sender ae) (gomatrixserverlib.EventID ae) w1
      = (Err err, w') →
    step_fails target remove add w err w'.

(** What [updateMembership] does once the handle [mu] is open: the [switch]
    on the new membership. *)
Definition dispatch (mu : Handle) (ae : gomatrixserverlib.Event) (new : string)
    (updates : list api.OutputEvent) (w : World) : outcome GoReturn * World :=
  if bool_decide (new = gomatrixserverlib.Invite) then
    updateToInviteMembership mu (Some ae) updates (RoomVersion w) w
  else if bool_decide (new = gomatrixserverlib.Join) then
    updateToJoinMembership mu (Some ae) updates w
  else if bool_decide (new = gomatrixserverlib.Leave)
          || bool_decide (new = gomatrixserverlib.Ban) then
    updateToLeaveMembership mu (Some ae) new updates w
  else (Panics (invalid_membership new), w).

End Failures.

(** ** How the membership of an event is read

    [Event.Membership] is a method of gomatrixserverlib, the library the
    events come from; the package under study only calls it:

    [if e.fields.Type != MRoomMember { return "", fmt.Errorf(...) }]
    [var content MemberContent]
    [if err := json.Unmarshal(e.fields.Content, &content); err != nil { return "", err }]
    [return content.Membership, nil]

    It refuses an event whose type is not [m.room.member], decodes the
    content of the event into a structure whose one field read here is the
    string [membership], and returns that field.  The decoding fails on a
    content that is not a JSON object and on a [membership] that is neither a
    string nor [null]; it does not fail on a content that has no [membership]
    (or has [null] for it), which leaves the field with the empty string. *)
Inductive member_content : Type :=
| content_undecodable (err : error)
| content_decoded (membership : option string).

(** An event as it is stored: its type, its content as far as the decoding
    tells, and what the other accessors return. *)
Record event_body : Type := mkEventBody {
  body_Type : string;
  body_Content : member_content;
  body_Sender : string;
  body_EventID : string;
  body_StateKey : option string
}.

Definition MRoomMember : string := "m.room.member".

Definition not_a_member_event : error :=
  collaborator_error "gomatrixserverlib: not an m.room.member event".

Definition read_Membership (b : event_body) : result string :=
  if bool_decide (body_Type b = MRoomMember) then
    match body_Content b with
    | content_undecodable err => Err err
    | content_decoded (Some membership) => Ok membership
    | content_decoded None => Ok EmptyString
    end
  else Err not_a_member_event.

(** The event the package observes for a stored event. *)
Definition event_of (b : event_body) : gomatrixserverlib.Event :=
  gomatrixserverlib.mkEvent (read_Membership b)
    (body_Sender b) (body_EventID b) (body_StateKey b).

(** The membership field of a membership event is absent. *)
Definition membership_absent (b : event_body) : Prop :=
  body_Type b = MRoomMember ∧ body_Content b = content_decoded None.

(** Two membership events of the sample room: one whose content has no
    [membership], one whose [membership] is a number. *)
Definition blank_member_body : event_body :=
  mkEventBody MRoomMember (content_decoded None)
    reference.alice "$blank" (Some reference.alice).

Definition number_member_error : error :=
  collaborator_error
    "json: cannot unmarshal number into Go struct field MemberContent.membership of type string".

Definition number_member_body : event_body :=
  mkEventBody MRoomMember (content_undecodable number_member_error)
    reference.alice "$number" (Some reference.alice).

(** ** More vocabulary, for the properties beyond the specification *)

(** A change record with its two sides exchanged. *)
Definition swap_sides (c : stateChange) : stateChange :=
  mkStateChange (sc_StateKeyTuple c) (addedEventNID c) (removedEventNID c).

(** The target participant of a change record. *)
Definition target_of (c : stateChange) : EventStateKeyNID :=
  skt_EventStateKeyNID (sc_StateKeyTuple c).

(** The records a change to the membership [new], carried by the added event
    [ae], can append: for an invite the "new invite" record of the event, for
    any other membership a "retire invite" record tagged with the membership,
    the event and its state key. *)
Definition appended_for (ae : gomatrixserverlib.Event) (new : string)
    (o : api.OutputEvent) : Prop :=
  (new = gomatrixserverlib.Invite ∧ ∃ roomVersion, o = new_invite_record ae roomVersion) ∨
  (new ≠ gomatrixserverlib.Invite ∧
   ∃ target eventID,
     gomatrixserverlib.StateKey ae = Some target ∧
     o = retire_invite_record new (gomatrixserverlib.EventID ae) target eventID).

(** An output record whose type says which of its contents is set. *)
Definition well_formed_record (o : api.OutputEvent) : Prop :=
  (api.Type' o = api.OutputTypeNewInviteEvent ∧
   is_Some (api.NewInviteEvent o) ∧ api.RetireInviteEvent o = None) ∨
  (api.Type' o = api.OutputTypeRetireInviteEvent ∧
   api.NewInviteEvent o = None ∧ is_Some (api.RetireInviteEvent o)).

(** ** Proofs about the pairer *)

Lemma entry_for_snoc t entries e :
  entry_for t (entries ++ [e]) =
  if decide (se_StateKeyTuple e = t) then Some e else entry_for t entries.
Proof.
  unfold entry_for. rewrite filter_app.
  rewrite filter_cons, filter_nil. case_decide.
  - by rewrite last_snoc.
  - by rewrite app_nil_r.
Qed.

Lemma entry_for_is_Some t entries :
  is_Some (entry_for t entries) ↔ t ∈ tuples_of entries.
Proof.
  unfold entry_for, tuples_of. rewrite last_is_Some. split.
  - intros Hne. destruct (filter _ entries) as [|e l] eqn:Hf; [done|].
    assert (He : e ∈ filter (λ e, se_StateKeyTuple e = t) entries)
      by (rewrite Hf; left).
    apply list_elem_of_filter in He as [<- He].
    by apply list_elem_of_fmap_2.
  - intros (e & -> & He)%list_elem_of_fmap Hnil.
    assert (Hin : e ∈ filter (λ e', se_StateKeyTuple e' = se_StateKeyTuple e) entries)
      by (by apply list_elem_of_filter).
    rewrite Hnil in Hin. by apply not_elem_of_nil in Hin.
Qed.

Lemma entry_for_Some t entries e :
  entry_for t entries = Some e → e ∈ entries ∧ se_StateKeyTuple e = t.
Proof.
  unfold entry_for. intros He%last_Some_elem_of.
  apply list_elem_of_filter in He. tauto.
Qed.

(** The only entry of a collection with a given tuple is the one found. *)
Lemma entry_for_unique t entries e :
  e ∈ entries → se_StateKeyTuple e = t →
  (∀ e', e' ∈ entries → se_StateKeyTuple e' = t → e' = e) →
  entry_for t entries = Some e.
Proof.
  intros He Ht Huniq.
  destruct (entry_for t entries) as [e'|] eqn:Hentry.
  - apply entry_for_Some in Hentry as [? ?]. f_equal. by apply Huniq.
  - assert (Hs : is_Some (entry_for t entries)).
    { apply entry_for_is_Some. subst t. by apply list_elem_of_fmap_2. }
    rewrite Hentry in Hs. by destruct Hs.
Qed.

(** After the first loop: one record per tuple of [added]. *)
Lemma pair_added_lookup added t :
  foldl pair_added ∅ added !! t =
  (λ e, mkStateChange t 0 (se_EventNID e)) <$> entry_for t added.
Proof.
  induction added as [|e added IH] using rev_ind; [done|].
  rewrite foldl_app, entry_for_snoc. simpl.
  unfold pair_added at 1.
  destruct (decide (se_StateKeyTuple e = t)) as [<-|Hne].
  - rewrite IH. destruct (entry_for _ added); simpl; by rewrite lookup_insert_eq.
  - destruct (_ !! se_StateKeyTuple e); by rewrite lookup_insert_ne.
Qed.

(** After the second loop. *)
Lemma paired_tuples_lookup removed added t :
  paired_tuples removed added !! t =
  match entry_for t removed, entry_for t added with
  | None, None => None
  | _, _ => Some (mkStateChange t (nid_for t removed) (nid_for t added))
  end.
Proof.
  unfold paired_tuples, nid_for.
  induction removed as [|e removed IH] using rev_ind.
  - simpl. rewrite pair_added_lookup.
    change (entry_for t []) with (@None StateEntry).
    by destruct (entry_for t added).
  - rewrite foldl_app, entry_for_snoc. simpl.
    unfold pair_removed at 1.
    destruct (decide (se_StateKeyTuple e = t)) as [<-|Hne].
    + rewrite IH.
      destruct (entry_for _ removed), (entry_for _ added);
        simpl; by rewrite lookup_insert_eq.
    + destruct (_ !! se_StateKeyTuple e); by rewrite lookup_insert_ne.
Qed.

Lemma paired_tuples_lookup_Some removed added t c :
  paired_tuples removed added !! t = Some c ↔
  (t ∈ tuples_of removed ∨ t ∈ tuples_of added) ∧
  c = mkStateChange t (nid_for t removed) (nid_for t added).
Proof.
  rewrite paired_tuples_lookup, <- !entry_for_is_Some.
  destruct (entry_for t removed) as [r|], (entry_for t added) as [a|];
    split; try (intros [= <-]; split; [eauto|done]);
    try (intros [_ ->]; done).
  - done.
  - intros [[[? [=]]|[? [=]]] _].
Qed.

(** Appending the values one at a time, as the last loop does. *)
Lemma append_each_snd {K V} (acc : list V) (l : list (K * V)) :
  foldl (λ changes kv, changes ++ [kv.2]) acc l = acc ++ l.*2.
Proof.
  revert acc. induction l as [|kv l IH]; intros acc; simpl.
  - by rewrite app_nil_r.
  - rewrite IH. by rewrite <- app_assoc.
Qed.

Section ChangePairerFacts.
Context `{!MapRange}.

Lemma pairUpChanges_range removed added :
  pairUpChanges removed added = (range_map (paired_tuples removed added)).*2.
Proof. unfold pairUpChanges. simpl. by rewrite append_each_snd. Qed.

Lemma pairUpChanges_perm removed added :
  pairUpChanges removed added ≡ₚ (map_to_list (paired_tuples removed added)).*2.
Proof. rewrite pairUpChanges_range. by rewrite range_map_perm. Qed.

Lemma pairUpChanges_keys removed added :
  sc_StateKeyTuple <$> pairUpChanges removed added
  ≡ₚ (map_to_list (paired_tuples removed added)).*1.
Proof.
  rewrite pairUpChanges_perm.
  assert (Heq : sc_StateKeyTuple <$> (map_to_list (paired_tuples removed added)).*2
                = (map_to_list (paired_tuples removed added)).*1);
    [|by rewrite Heq].
  rewrite <- list_fmap_compose. apply list_fmap_ext.
  intros i [k c] Hkc%list_elem_of_lookup_2%elem_of_map_to_list. simpl.
  apply paired_tuples_lookup_Some in Hkc as [_ ->]. done.
Qed.

End ChangePairerFacts.

Lemma nid_for_absent t entries :
  t ∉ tuples_of entries → nid_for t entries = 0%Z.
Proof.
  intros Hnot. unfold nid_for.
  destruct (entry_for t entries) as [e|] eqn:He; [|done].
  exfalso. apply Hnot, entry_for_is_Some. by rewrite He.
Qed.

Lemma nid_for_unique t entries e :
  e ∈ entries → se_StateKeyTuple e = t →
  (∀ e', e' ∈ entries → se_StateKeyTuple e' = t → e' = e) →
  nid_for t entries = se_EventNID e.
Proof.
  intros He Ht Huniq. unfold nid_for.
  by rewrite (entry_for_unique t entries e).
Qed.

Section ChangePairerTheorems.
Context `{!MapRange}.

Lemma pairUpChanges_elem removed added c :
  c ∈ pairUpChanges removed added ↔
  paired_tuples removed added !! sc_StateKeyTuple c = Some c.
Proof.
  rewrite pairUpChanges_perm, list_elem_of_fmap. split.
  - intros ([k c'] & -> & Hkc%elem_of_map_to_list). simpl.
    pose proof Hkc as Hkc'.
    apply paired_tuples_lookup_Some in Hkc' as [_ ->]. done.
  - intros Hc. exists (sc_StateKeyTuple c, c). split; [done|].
    by apply elem_of_map_to_list.
Qed.

(** C1: [pairUpChanges] returns exactly one change record per distinct
    [StateKeyTuple] of the two collections: the tuples of the records are
    pairwise distinct, and they are the tuples that occur in [removed] or in
    [added].  In each record [addedEventNID] is the [EventNID] of the entry
    of [added] with the record's tuple ([nid_for]: the last such entry if
    there are several, [0] if there is none), and [removedEventNID] is the
    same for [removed].  This holds for every order in which the map may be
    iterated. *)
Theorem pairUpChanges_complete (removed added : list StateEntry) :
  NoDup (sc_StateKeyTuple <$> pairUpChanges removed added) ∧
  (∀ t, t ∈ sc_StateKeyTuple <$> pairUpChanges removed added ↔
        t ∈ tuples_of removed ∨ t ∈ tuples_of added) ∧
  (∀ c, c ∈ pairUpChanges removed added →
        addedEventNID c = nid_for (sc_StateKeyTuple c) added ∧
        removedEventNID c = nid_for (sc_StateKeyTuple c) removed).
Proof.
  split; [|split].
  - rewrite pairUpChanges_keys. apply NoDup_fst_map_to_list.
  - intros t. rewrite pairUpChanges_keys, list_elem_of_fmap. split.
    + intros ([k c] & -> & Hkc%elem_of_map_to_list). simpl.
      by apply paired_tuples_lookup_Some in Hkc as [? _].
    + intros Ht.
      exists (t, mkStateChange t (nid_for t removed) (nid_for t added)).
      split; [done|].
      apply elem_of_map_to_list, paired_tuples_lookup_Some. done.
  - intros c Hc%pairUpChanges_elem.
    apply paired_tuples_lookup_Some in Hc as [_ Hc].
    rewrite Hc at 1 3. done.
Qed.

End ChangePairerTheorems.

(** ** Proofs about the transition handlers *)

(** Unfolds the plumbing of [M], leaving the calls into the store. *)
Ltac run_M :=
  unfold mbind, M_bind, mret, M_ret, call, read, deref, panic; simpl.

Section HandlerFacts.
Context {World Handle : Type}.
Context `{!MembershipUpdater World Handle}.
Context `{!RoomRecentEventsUpdater World Handle}.

Lemma append_retired_records add membership target retired updates (w : World) :
  gomatrixserverlib.StateKey add = Some target →
  append_retired add membership retired updates w =
  (Returns (updates ++
            (retire_invite_record membership (gomatrixserverlib.EventID add) target
               <$> retired)), w).
Proof.
  intros Hkey. revert updates.
  induction retired as [|eventID retired IH]; intros updates; simpl.
  - run_M. by rewrite app_nil_r.
  - unfold mbind, M_bind, deref. rewrite Hkey. simpl.
    rewrite IH. by rewrite <- app_assoc.
Qed.

Lemma updateToInviteMembership_new mu add updates roomVersion (w w1 : World) :
  SetToInvite mu add w = (Ok true, w1) →
  updateToInviteMembership mu (Some add) updates roomVersion w =
  (Returns (updates ++ [new_invite_record add roomVersion], None), w1).
Proof. intros Hset. unfold updateToInviteMembership. run_M. by rewrite Hset. Qed.

Lemma updateToInviteMembership_known mu add updates roomVersion (w w1 : World) :
  SetToInvite mu add w = (Ok false, w1) →
  updateToInviteMembership mu (Some add) updates roomVersion w =
  (Returns (updates, None), w1).
Proof. intros Hset. unfold updateToInviteMembership. run_M. by rewrite Hset. Qed.

Lemma updateToJoinMembership_joined mu add updates retired (w w1 : World) :
  IsJoin mu w = true →
  SetToJoin mu (gomatrixserverlib.Sender add) (gomatrixserverlib.EventID add) true w
    = (Ok retired, w1) →
  updateToJoinMembership mu (Some add) updates w = (Returns (updates, None), w1).
Proof.
  intros Hjoin Hset. unfold updateToJoinMembership. run_M.
  by rewrite Hjoin, Hset.
Qed.

Lemma updateToJoinMembership_joining mu add target updates retired (w w1 : World) :
  IsJoin mu w = false →
  SetToJoin mu (gomatrixserverlib.Sender add) (gomatrixserverlib.EventID add) false w
    = (Ok retired, w1) →
  gomatrixserverlib.StateKey add = Some target →
  updateToJoinMembership mu (Some add) updates w =
  (Returns (updates ++
            (retire_invite_record gomatrixserverlib.Join
               (gomatrixserverlib.EventID add) target <$> retired),
            None), w1).
Proof.
  intros Hjoin Hset Hkey. unfold updateToJoinMembership. run_M.
  rewrite Hjoin, Hset.
  by rewrite (append_retired_records _ _ target).
Qed.

Lemma updateToLeaveMembership_left mu add newMembership updates (w : World) :
  IsLeave mu w = true →
  updateToLeaveMembership mu add newMembership updates w =
  (Returns (updates, None), w).
Proof.
  intros Hleave. unfold updateToLeaveMembership. run_M. by rewrite Hleave.
Qed.

Lemma updateToLeaveMembership_leaving
    mu add newMembership target updates retired (w w1 : World) :
  IsLeave mu w = false →
  SetToLeave mu (gomatrixserverlib.Sender add) (gomatrixserverlib.EventID add) w
    = (Ok retired, w1) →
  gomatrixserverlib.StateKey add = Some target →
  updateToLeaveMembership mu (Some add) newMembership updates w =
  (Returns (updates ++
            (retire_invite_record newMembership
               (gomatrixserverlib.EventID add) target <$> retired),
            None), w1).
Proof.
  intros Hleave Hset Hkey. unfold updateToLeaveMembership. run_M.
  rewrite Hleave, Hset.
  by rewrite (append_retired_records _ _ target).
Qed.

End HandlerFacts.

(** ** Counting output records *)

Lemma count_records_app type l1 l2 :
  count_records type (l1 ++ l2) = count_records type l1 + count_records type l2.
Proof. unfold count_records. by rewrite filter_app, length_app. Qed.

Lemma count_new_invite_record ev roomVersion :
  count_records api.OutputTypeNewInviteEvent [new_invite_record ev roomVersion] = 1.
Proof. reflexivity. Qed.

Lemma count_retire_invite_records membership retiredBy target retired :
  count_records api.OutputTypeRetireInviteEvent
    (retire_invite_record membership retiredBy target <$> retired) = length retired.
Proof.
  unfold count_records.
  induction retired as [|r retired IH]; [done|].
  rewrite fmap_cons, filter_cons, decide_True by done. simpl. by rewrite IH.
Qed.

(** ** The transition handlers: the properties of the specification *)

Section HandlerTheorems.
Context {World Handle : Type}.
Context `{!MembershipUpdater World Handle}.
Context `{!RoomRecentEventsUpdater World Handle}.

(** C2: the invite transition appends exactly one "new invite" record,
    carrying the headered event and the room version, when [SetToInvite]
    reports the invite as new, and appends nothing when it reports the invite
    as recorded already.  Hence, on a handle that reports the invite as new
    the first time and as recorded the second time, two runs with the same
    event yield one "new invite" record in total, the second run yielding
    none. *)
Theorem updateToInviteMembership_dedup
    mu add updates roomVersion (needsSending : bool) (w w1 : World) :
  SetToInvite mu add w = (Ok needsSending, w1) →
  updateToInviteMembership mu (Some add) updates roomVersion w =
    (Returns (if needsSending
              then updates ++ [new_invite_record add roomVersion]
              else updates, None), w1) ∧
  (∀ w2,
     needsSending = true →
     SetToInvite mu add w1 = (Ok false, w2) →
     updateToInviteMembership mu (Some add)
       (updates ++ [new_invite_record add roomVersion]) roomVersion w1 =
       (Returns (updates ++ [new_invite_record add roomVersion], None), w2) ∧
     count_records api.OutputTypeNewInviteEvent
       (updates ++ [new_invite_record add roomVersion]) =
     S (count_records api.OutputTypeNewInviteEvent updates)).
Proof.
  intros Hset. split.
  - destruct needsSending.
    + by apply updateToInviteMembership_new.
    + by apply updateToInviteMembership_known.
  - intros w2 _ Hset2. split.
    + by apply updateToInviteMembership_known.
    + rewrite count_records_app, count_new_invite_record. lia.
Qed.

(** C3: the join transition.  When the handle reports the participant as
    joined, [SetToJoin] is called with [isUpdate = true] (no retirement) and
    no record is appended.  Otherwise [SetToJoin] is called with
    [isUpdate = false] and one "retire invite" record is appended per retired
    invite it returns, with membership join, the joining event as the
    retiring event, and the target participant (the state key of the event).
    Hence a participant with one outstanding invite who joins yields one
    "retire invite" record, and a second join, the handle then reporting the
    participant as joined, yields none. *)
Theorem updateToJoinMembership_retires
    mu add target updates retired (joined : bool) (w w1 : World) :
  gomatrixserverlib.StateKey add = Some target →
  IsJoin mu w = joined →
  SetToJoin mu (gomatrixserverlib.Sender add) (gomatrixserverlib.EventID add) joined w
    = (Ok retired, w1) →
  updateToJoinMembership mu (Some add) updates w =
    (Returns (if joined then updates
              else updates ++
                   (retire_invite_record gomatrixserverlib.Join
                      (gomatrixserverlib.EventID add) target <$> retired),
              None), w1) ∧
  (∀ invite retired2 w2,
     joined = false →
     retired = [invite] →
     IsJoin mu w1 = true →
     SetToJoin mu (gomatrixserverlib.Sender add) (gomatrixserverlib.EventID add) true w1
       = (Ok retired2, w2) →
     let updates1 :=
       updates ++ [retire_invite_record gomatrixserverlib.Join
                     (gomatrixserverlib.EventID add) target invite] in
     updateToJoinMembership mu (Some add) updates w = (Returns (updates1, None), w1) ∧
     updateToJoinMembership mu (Some add) updates1 w1 = (Returns (updates1, None), w2) ∧
     count_records api.OutputTypeRetireInviteEvent updates1 =
     S (count_records api.OutputTypeRetireInviteEvent updates)).
Proof.
  intros Hkey Hjoin Hset. split.
  - destruct joined.
    + by eapply updateToJoinMembership_joined.
    + by apply updateToJoinMembership_joining.
  - intros invite retired2 w2 -> -> Hjoin1 Hset1. simpl. split; [|split].
    + by rewrite (updateToJoinMembership_joining _ _ target _ [invite] w w1).
    + by eapply updateToJoinMembership_joined.
    + rewrite count_records_app.
      change [retire_invite_record gomatrixserverlib.Join
                (gomatrixserverlib.EventID add) target invite]
        with (retire_invite_record gomatrixserverlib.Join
                (gomatrixserverlib.EventID add) target <$> [invite]).
      rewrite count_retire_invite_records. simpl. lia.
Qed.

(** C4: the leave-or-ban transition.  When the handle reports the participant
    as left or banned already, no record is appended and the store is left
    as it was.  Otherwise [SetToLeave] is called and one "retire invite"
    record is appended per retired invite it returns, with the new membership
    as it was passed in (leave or ban), the triggering event as the retiring
    event, and the target participant. *)
Theorem updateToLeaveMembership_retires
    mu add target newMembership updates (w : World) :
  (IsLeave mu w = true →
   updateToLeaveMembership mu (Some add) newMembership updates w =
     (Returns (updates, None), w)) ∧
  (∀ retired w1,
     IsLeave mu w = false →
     SetToLeave mu (gomatrixserverlib.Sender add) (gomatrixserverlib.EventID add) w
       = (Ok retired, w1) →
     gomatrixserverlib.StateKey add = Some target →
     updateToLeaveMembership mu (Some add) newMembership updates w =
       (Returns (updates ++
                 (retire_invite_record newMembership
                    (gomatrixserverlib.EventID add) target <$> retired),
                 None), w1) ∧
     count_records api.OutputTypeRetireInviteEvent
       (updates ++ (retire_invite_record newMembership
                      (gomatrixserverlib.EventID add) target <$> retired)) =
     length retired + count_records api.OutputTypeRetireInviteEvent updates ∧
     Forall (λ o, ∃ r, api.RetireInviteEvent o = Some r ∧
                       api.Membership r = newMembership)
            (retire_invite_record newMembership
               (gomatrixserverlib.EventID add) target <$> retired)).
Proof.
  split.
  - apply updateToLeaveMembership_left.
  - intros retired w1 Hleave Hset Hkey. split; [|split].
    + by apply updateToLeaveMembership_leaving.
    + rewrite count_records_app, count_retire_invite_records. lia.
    + apply Forall_fmap, Forall_true. intros r. simpl. eauto.
Qed.

End HandlerTheorems.

(** ** Proofs about the membership resolver *)

Section ResolverFacts.
Context {World Handle : Type}.
Context `{!MembershipUpdater World Handle}.
Context `{!RoomRecentEventsUpdater World Handle}.
Context `{!Database World}.

Lemma updateMembership_removed_unparsable target re add updates err (w : World) :
  gomatrixserverlib.Membership re = Err err →
  updateMembership target (Some re) add updates w = (Returns ([], Some err), w).
Proof. intros Hre. unfold updateMembership. by rewrite Hre. Qed.

Lemma updateMembership_added_unparsable target remove ae updates old err (w : World) :
  classify remove = Ok old →
  gomatrixserverlib.Membership ae = Err err →
  updateMembership target remove (Some ae) updates w = (Returns ([], Some err), w).
Proof.
  intros Hold Hae. unfold updateMembership, classify in *. by rewrite Hold, Hae.
Qed.

Lemma updateMembership_same target remove add updates old new (w : World) :
  classify remove = Ok old →
  classify add = Ok new →
  old = new →
  new ≠ gomatrixserverlib.Join →
  updateMembership target remove add updates w = (Returns (updates, None), w).
Proof.
  intros Hold Hnew -> Hjoin. unfold updateMembership, classify in *.
  rewrite Hold, Hnew.
  by rewrite bool_decide_eq_true_2, bool_decide_eq_false_2.
Qed.

Lemma updateMembership_no_add target remove updates old (w : World) :
  classify remove = Ok old →
  old ≠ gomatrixserverlib.Leave →
  updateMembership target remove None updates w =
  (Returns (updates, Some (errors_New "add should not be nil")), w).
Proof.
  intros Hold Hleave. unfold updateMembership, classify in *.
  rewrite Hold. by rewrite bool_decide_eq_false_2.
Qed.

Lemma updateMembership_opens target remove ae updates old new (w : World) :
  classify remove = Ok old →
  gomatrixserverlib.Membership ae = Ok new →
  old ≠ new ∨ new = gomatrixserverlib.Join →
  updateMembership target remove (Some ae) updates w =
  match OpenMembershipUpdater target w with
  | (Err err, w1) => (Returns ([], Some err), w1)
  | (Ok mu, w1) => dispatch mu ae new updates w1
  end.
Proof.
  intros Hold Hnew Hchange. unfold updateMembership, classify in *.
  rewrite Hold, Hnew.
  assert (Hgo : bool_decide (old = new)
                && negb (bool_decide (new = gomatrixserverlib.Join)) = false).
  { destruct Hchange as [Hne| ->].
    - by rewrite bool_decide_eq_false_2.
    - rewrite (bool_decide_eq_true_2
                 (gomatrixserverlib.Join = gomatrixserverlib.Join)) by done.
      apply andb_false_r. }
  rewrite Hgo. run_M.
  destruct (OpenMembershipUpdater target w) as [[mu|err] w1]; [|done].
  unfold dispatch.
  destruct (bool_decide (new = gomatrixserverlib.Invite)); [done|].
  destruct (bool_decide (new = gomatrixserverlib.Join)); [done|].
  by destruct (_ || _).
Qed.

(** The loop over the changes, cut in two. *)
Lemma updateMemberships_loop_app events done rest updates (w : World) :
  updateMemberships_loop events (done ++ rest) updates w =
  match updateMemberships_loop events done updates w with
  | (Returns (updates1, None), w1) => updateMemberships_loop events rest updates1 w1
  | stopped => stopped
  end.
Proof.
  revert updates w. induction done as [|change done IH]; intros updates w; [done|].
  simpl. unfold mbind, M_bind.
  destruct (updateMembership _ _ _ updates w) as [[[updates1 [err|]]|p] w1];
    [done|apply IH|done].
Qed.

Lemma updateMemberships_loop_stops events change rest updates updates1 err (w w1 : World) :
  updateMembership (skt_EventStateKeyNID (sc_StateKeyTuple change))
    (resolve_side events (removedEventNID change))
    (resolve_side events (addedEventNID change)) updates w
    = (Returns (updates1, Some err), w1) →
  updateMemberships_loop events (change :: rest) updates w = (Returns ([], Some err), w1).
Proof. intros Hstep. simpl. unfold mbind, M_bind. by rewrite Hstep. Qed.

Lemma updateMemberships_loop_all_or_nothing events changes updates recs err (w w1 : World) :
  updateMemberships_loop events changes updates w = (Returns (recs, Some err), w1) →
  recs = [].
Proof.
  revert updates w. induction changes as [|change changes IH]; intros updates w.
  - simpl. unfold mret, M_ret. by intros [= _ ?].
  - simpl. unfold mbind, M_bind.
    destruct (updateMembership _ _ _ updates w) as [[[updates1 [err1|]]|p] w2].
    + unfold mret, M_ret. by intros [= <- _ _].
    + apply IH.
    + done.
Qed.

(** Every failing step makes [updateMembership] return its error. *)
Lemma updateMembership_step_fails target remove add updates err (w w1 : World) :
  step_fails target remove add w err w1 →
  ∃ recs, updateMembership target remove add updates w = (Returns (recs, Some err), w1).
Proof.
  intros Hfail.
  destruct Hfail as [err Hre|old err Hold Hadd|old Hold Hne ->
                    |old new ae err w1 Hold -> Hnew Hchange Hopen
                    |old ae mu w0 err w1 Hold -> Hnew Hne Hopen Hset
                    |old ae mu w0 err w1 Hold -> Hnew Hopen Hset
                    |old new ae mu w0 err w1 Hold -> Hnew Hkind Hne Hopen Hleave Hset].
  - destruct remove as [re|]; [|done].
    exists []. by apply updateMembership_removed_unparsable.
  - destruct add as [ae|]; [|done].
    exists []. by eapply updateMembership_added_unparsable.
  - exists updates. by eapply updateMembership_no_add.
  - exists []. rewrite (updateMembership_opens _ _ _ _ old new) by done.
    by rewrite Hopen.
  - exists []. rewrite (updateMembership_opens _ _ _ _ old gomatrixserverlib.Invite)
      by (done || by left).
    rewrite Hopen. unfold dispatch. simpl.
    unfold updateToInviteMembership. run_M. by rewrite Hset.
  - exists []. rewrite (updateMembership_opens _ _ _ _ old gomatrixserverlib.Join)
      by (done || by right).
    rewrite Hopen. unfold dispatch. simpl.
    unfold updateToJoinMembership. run_M.
    destruct (IsJoin mu w0); by rewrite Hset.
  - exists []. rewrite (updateMembership_opens _ _ _ _ old new) by (done || by left).
    rewrite Hopen.
    assert (Hswitch : dispatch mu ae new updates w0 =
                      updateToLeaveMembership mu (Some ae) new updates w0)
      by (by destruct Hkind as [->| ->]).
    rewrite Hswitch.
    unfold updateToLeaveMembership. run_M. by rewrite Hleave, Hset.
Qed.

End ResolverFacts.

(** ** The membership resolver: the properties of the specification *)

Section ResolverTheorems.
Context {World Handle : Type}.
Context `{!MembershipUpdater World Handle}.
Context `{!RoomRecentEventsUpdater World Handle}.
Context `{!Database World}.

(** C5: a change whose old and new memberships are the same, the membership
    not being join, is skipped: [updateMembership] returns the accumulator
    as it is and leaves the store as it is, whatever the store and the
    handle are (no handle is opened, no operation of a handle is run).  A
    join-to-join change is not skipped: a handle is opened and the change is
    given to the join transition. *)
Theorem updateMembership_noop target remove add updates old new (w : World) :
  classify remove = Ok old →
  classify add = Ok new →
  old = new →
  (new ≠ gomatrixserverlib.Join →
   updateMembership target remove add updates w = (Returns (updates, None), w)) ∧
  (new = gomatrixserverlib.Join →
   ∃ ae, add = Some ae ∧
     updateMembership target remove add updates w =
     match OpenMembershipUpdater target w with
     | (Err err, w1) => (Returns ([], Some err), w1)
     | (Ok mu, w1) => updateToJoinMembership mu (Some ae) updates w1
     end).
Proof.
  intros Hold Hnew Heq. split.
  - intros Hjoin. by eapply updateMembership_same.
  - intros ->. destruct add as [ae|]; [|done].
    exists ae. split; [done|]. simpl in Hnew.
    rewrite (updateMembership_opens _ _ _ _ old gomatrixserverlib.Join)
      by (done || by right).
    by destruct (OpenMembershipUpdater target w) as [[mu|err] w1].
Qed.

(** C7: a change that the short-circuit does not skip (its old membership is
    not leave) and for which no added event resolved makes [updateMembership]
    return the error "add should not be nil": it does not panic, it opens no
    handle and appends nothing to the accumulator, and the loop of
    [updateMemberships] then stops and returns that error with no record. *)
Theorem updateMembership_missing_add target remove updates old (w : World) :
  classify remove = Ok old →
  old ≠ gomatrixserverlib.Leave →
  updateMembership target remove None updates w =
    (Returns (updates, Some (errors_New "add should not be nil")), w) ∧
  (∀ events change rest,
     skt_EventStateKeyNID (sc_StateKeyTuple change) = target →
     resolve_side events (removedEventNID change) = remove →
     resolve_side events (addedEventNID change) = None →
     updateMemberships_loop events (change :: rest) updates w =
       (Returns ([], Some (errors_New "add should not be nil")), w)).
Proof.
  intros Hold Hne. split.
  - by eapply updateMembership_no_add.
  - intros events change rest <- <- Hadd.
    eapply updateMemberships_loop_stops. rewrite Hadd.
    by eapply updateMembership_no_add.
Qed.

(** C8, as the code has it: when the new membership is none of invite, join,
    leave and ban, [updateMembership] returns the accumulator with no error
    if the old membership is the same value; otherwise it opens the handle,
    returns the error of the store if that fails, and panics with the
    "not one of the allowed values" error if it succeeds.  The invalid value
    is never turned into an error that is returned. *)
Theorem updateMembership_invalid_membership
    target remove ae updates old new (w : World) :
  classify remove = Ok old →
  gomatrixserverlib.Membership ae = Ok new →
  ¬ known_membership new →
  updateMembership target remove (Some ae) updates w =
  if decide (old = new) then (Returns (updates, None), w)
  else match OpenMembershipUpdater target w with
       | (Err err, w1) => (Returns ([], Some err), w1)
       | (Ok mu, w1) => (Panics (invalid_membership new), w1)
       end.
Proof.
  intros Hold Hnew Hunknown. unfold known_membership in Hunknown.
  destruct (decide (old = new)) as [Heq|Hne].
  - eapply updateMembership_same; [done|done|done|tauto].
  - rewrite (updateMembership_opens _ _ _ _ old new) by (done || by left).
    destruct (OpenMembershipUpdater target w) as [[mu|err] w1]; [|done].
    unfold dispatch.
    rewrite !bool_decide_eq_false_2 by tauto. done.
Qed.

(** C9, as the code has it: [updateMembership] classifies the old membership
    from the removed event and the new one from the added event.  An event
    that is present and whose [Membership] returns an error (it is not a
    membership event, or its content does not decode: a malformed
    [membership]) makes [updateMembership] return that error with no record,
    the store untouched, and the loop of [updateMemberships] then stops with
    that error and no record.  An absent removed event counts as a leave
    event; with an absent added event the change is skipped when the old
    membership is leave, as for an added leave event, and is otherwise
    refused for want of an added event.  A membership event whose content has
    no [membership] is not an error: its membership reads as the empty
    string, so that as the added event it is skipped when the old membership
    is the empty string too, and otherwise meets the panic of the switch once
    the handle is open. *)
Theorem updateMembership_classification target remove add updates (w : World) :
  (∀ err, classify remove = Err err →
     updateMembership target remove add updates w = (Returns ([], Some err), w)) ∧
  (∀ old err, classify remove = Ok old → classify add = Err err →
     updateMembership target remove add updates w = (Returns ([], Some err), w)) ∧
  (∀ err events change rest,
     skt_EventStateKeyNID (sc_StateKeyTuple change) = target →
     resolve_side events (removedEventNID change) = remove →
     resolve_side events (addedEventNID change) = add →
     classify remove = Err err ∨
     (∃ old, classify remove = Ok old ∧ classify add = Err err) →
     updateMemberships_loop events (change :: rest) updates w =
       (Returns ([], Some err), w)) ∧
  (∀ le, gomatrixserverlib.Membership le = Ok gomatrixserverlib.Leave →
     updateMembership target None add updates w =
     updateMembership target (Some le) add updates w) ∧
  (∀ old, classify remove = Ok old →
     updateMembership target remove None updates w =
     if decide (old = gomatrixserverlib.Leave)
     then (Returns (updates, None), w)
     else (Returns (updates, Some (errors_New "add should not be nil")), w)) ∧
  (∀ b err,
     classify (Some (event_of b)) = Err err ↔
     (body_Type b ≠ MRoomMember ∧ err = not_a_member_event) ∨
     (body_Type b = MRoomMember ∧ body_Content b = content_undecodable err)) ∧
  (∀ b old,
     membership_absent b →
     classify remove = Ok old →
     classify (Some (event_of b)) = Ok EmptyString ∧
     updateMembership target remove (Some (event_of b)) updates w =
     if decide (old = EmptyString) then (Returns (updates, None), w)
     else match OpenMembershipUpdater target w with
          | (Err err, w1) => (Returns ([], Some err), w1)
          | (Ok mu, w1) => (Panics (invalid_membership EmptyString), w1)
          end).
Proof.
  assert (Hremoved : ∀ err, classify remove = Err err →
            updateMembership target remove add updates w = (Returns ([], Some err), w)).
  { intros err Hre. destruct remove as [re|]; [|done].
    by apply updateMembership_removed_unparsable. }
  assert (Hadded : ∀ old err, classify remove = Ok old → classify add = Err err →
            updateMembership target remove add updates w = (Returns ([], Some err), w)).
  { intros old err Hold Hadd. destruct add as [ae|]; [|done].
    by eapply updateMembership_added_unparsable. }
  split; [done|]. split; [done|]. split; [|split; [|split; [|split]]].
  - intros err events change rest <- <- <- Hfail.
    eapply updateMemberships_loop_stops.
    destruct Hfail as [Hre|(old & Hold & Hadd)]; eauto.
  - intros le Hle. unfold updateMembership. by rewrite Hle.
  - intros old Hold. destruct (decide (old = gomatrixserverlib.Leave)) as [->|Hne].
    + by eapply updateMembership_same.
    + by eapply updateMembership_no_add.
  - intros b err. simpl. unfold read_Membership.
    case_bool_decide as Hty.
    + destruct (body_Content b) as [err'|[m|]]; split.
      * intros [= ->]. by right.
      * by intros [[? _]|[_ [= ->]]].
      * by intros [=].
      * by intros [[? _]|[_ [=]]].
      * by intros [=].
      * by intros [[? _]|[_ [=]]].
    + split.
      * intros [= <-]. by left.
      * by intros [[_ ->]|[? _]].
  - intros b old [Hty Hcontent] Hold.
    assert (Hblank : gomatrixserverlib.Membership (event_of b) = Ok EmptyString).
    { simpl. unfold read_Membership.
      by rewrite bool_decide_eq_true_2, Hcontent. }
    split; [exact Hblank|].
    destruct (decide (old = EmptyString)) as [Heq|Hne].
    + by eapply updateMembership_same.
    + rewrite (updateMembership_opens _ _ _ _ old EmptyString) by (done || by left).
      by destruct (OpenMembershipUpdater target w) as [[mu|err] w1].
Qed.

End ResolverTheorems.

Section ReconciliationTheorems.
Context {World Handle : Type}.
Context `{!MembershipUpdater World Handle}.
Context `{!RoomRecentEventsUpdater World Handle}.
Context `{!Database World}.
Context `{!MapRange}.
Variable MRoomMemberNID : EventTypeNID.

Lemma updateMemberships_loaded removed added events (w w0 : World) :
  Events (collect_eventNIDs (membershipChanges MRoomMemberNID removed added)) w
    = (Ok events, w0) →
  updateMemberships MRoomMemberNID removed added w =
  updateMemberships_loop events (membershipChanges MRoomMemberNID removed added) [] w0.
Proof. intros Hload. unfold updateMemberships. run_M. by rewrite Hload. Qed.

(** C6: [updateMemberships] returns all the records or none.  When the batch
    load of the events fails, it returns the error and no record.  When a
    step fails on some change (reading a membership, the check that an added
    event resolved, opening the handle, an operation of the handle), the
    changes before it having gone through, it returns the error of that step
    and no record.  And whenever it returns an error at all, the list of
    records it returns with it is empty. *)
Theorem updateMemberships_all_or_nothing removed added (w : World) :
  (∀ err w1,
     Events (collect_eventNIDs (membershipChanges MRoomMemberNID removed added)) w
       = (Err err, w1) →
     updateMemberships MRoomMemberNID removed added w = (Returns ([], Some err), w1)) ∧
  (∀ events w0 done change rest updates1 w1 err w2,
     Events (collect_eventNIDs (membershipChanges MRoomMemberNID removed added)) w
       = (Ok events, w0) →
     membershipChanges MRoomMemberNID removed added = done ++ change :: rest →
     updateMemberships_loop events done [] w0 = (Returns (updates1, None), w1) →
     step_fails (skt_EventStateKeyNID (sc_StateKeyTuple change))
       (resolve_side events (removedEventNID change))
       (resolve_side events (addedEventNID change)) w1 err w2 →
     updateMemberships MRoomMemberNID removed added w = (Returns ([], Some err), w2)) ∧
  (∀ recs err w1,
     updateMemberships MRoomMemberNID removed added w = (Returns (recs, Some err), w1) →
     recs = []).
Proof.
  split; [|split].
  - intros err w1 Hload. unfold updateMemberships. run_M. by rewrite Hload.
  - intros events w0 done change rest updates1 w1 err w2 Hload Hcut Hdone Hfail.
    rewrite (updateMemberships_loaded _ _ events w w0) by done.
    rewrite Hcut, updateMemberships_loop_app, Hdone.
    destruct (updateMembership_step_fails _ _ _ updates1 _ _ _ Hfail) as [recs Hstep].
    by eapply updateMemberships_loop_stops.
  - intros recs err w1. unfold updateMemberships. run_M.
    destruct (Events _ w) as [[events|err0] w0].
    + apply updateMemberships_loop_all_or_nothing.
    + by intros [= <- _ _].
Qed.

End ReconciliationTheorems.

(** ** Opening the database: the property of the specification *)

Lemma has_file_scheme_decided url_Parse dataSourceName :
  storage.has_file_scheme url_Parse dataSourceName ∨
  ¬ storage.has_file_scheme url_Parse dataSourceName.
Proof.
  unfold storage.has_file_scheme.
  destruct (url_Parse dataSourceName) as [uri|err].
  - destruct (decide (storage.Scheme uri = "file")) as [Hfile|Hother].
    + left. eauto.
    + right. intros (uri' & [= <-] & ?). done.
  - right. by intros (uri' & [=] & _).
Qed.

(** C10: [NewDatabase] opens a sqlite3 database exactly when the data source
    parses as a URL whose scheme is [file]; in every other case (the scheme
    [postgres], any other scheme, a data source that does not parse) it opens
    a postgres database with the data source and the properties.  What it
    returns is what the constructor it calls returns: the failure to parse
    the data source is not returned. *)
Theorem NewDatabase_dispatch {DbProperties : Type}
    (url_Parse : string → result storage.URL)
    (dataSourceName : string) (dbProperties : DbProperties) :
  (∀ (Database : Type) (sqlite3_NewDatabase : string → result Database)
     (postgres_NewDatabase : string → DbProperties → result Database),
     (storage.has_file_scheme url_Parse dataSourceName →
      storage.NewDatabase url_Parse sqlite3_NewDatabase postgres_NewDatabase
        dataSourceName dbProperties = sqlite3_NewDatabase dataSourceName) ∧
     (¬ storage.has_file_scheme url_Parse dataSourceName →
      storage.NewDatabase url_Parse sqlite3_NewDatabase postgres_NewDatabase
        dataSourceName dbProperties = postgres_NewDatabase dataSourceName dbProperties)) ∧
  (storage.NewDatabase_opens url_Parse dataSourceName dbProperties
     = Ok (storage.opened_sqlite3 dataSourceName)
   ↔ storage.has_file_scheme url_Parse dataSourceName) ∧
  (storage.NewDatabase_opens url_Parse dataSourceName dbProperties
     = Ok (storage.opened_postgres dataSourceName dbProperties)
   ↔ ¬ storage.has_file_scheme url_Parse dataSourceName).
Proof.
  assert (Hgen : ∀ (Database : Type) (sqlite3_NewDatabase : string → result Database)
     (postgres_NewDatabase : string → DbProperties → result Database),
     (storage.has_file_scheme url_Parse dataSourceName →
      storage.NewDatabase url_Parse sqlite3_NewDatabase postgres_NewDatabase
        dataSourceName dbProperties = sqlite3_NewDatabase dataSourceName) ∧
     (¬ storage.has_file_scheme url_Parse dataSourceName →
      storage.NewDatabase url_Parse sqlite3_NewDatabase postgres_NewDatabase
        dataSourceName dbProperties = postgres_NewDatabase dataSourceName dbProperties)).
  { intros Database sqlite3_NewDatabase postgres_NewDatabase.
    unfold storage.has_file_scheme, storage.NewDatabase.
    destruct (url_Parse dataSourceName) as [uri|err]; split.
    - intros (uri' & [= <-] & Hscheme). by rewrite bool_decide_eq_true_2.
    - intros Hnot. rewrite bool_decide_eq_false_2 by (intros ?; apply Hnot; eauto).
      by destruct (bool_decide _).
    - by intros (uri' & [=] & _).
    - done. }
  split; [exact Hgen|].
  unfold storage.NewDatabase_opens.
  destruct (Hgen _ (λ dsn, Ok (storage.opened_sqlite3 dsn))
              (λ dsn props, Ok (@storage.opened_postgres DbProperties dsn props)))
    as [Hfile Hother].
  destruct (has_file_scheme_decided url_Parse dataSourceName) as [Hyes|Hno].
  - rewrite (Hfile Hyes). split; split; done.
  - rewrite (Hother Hno). split; split; done.
Qed.

(** ** Beyond the specification: the change pairer *)

Lemma entry_for_elem t entries :
  t ∈ tuples_of entries →
  ∃ e, entry_for t entries = Some e ∧ e ∈ entries ∧ se_StateKeyTuple e = t.
Proof.
  intros [e He]%entry_for_is_Some. exists e. split; [done|].
  by apply entry_for_Some.
Qed.

(** In a collection that holds each tuple once, the entry found for a tuple
    does not depend on the order of the collection. *)
Lemma entry_for_permutation t entries entries' :
  NoDup (tuples_of entries) → entries ≡ₚ entries' →
  entry_for t entries = entry_for t entries'.
Proof.
  intros Hnodup Hperm.
  assert (Huniq : ∀ l, l ≡ₚ entries → ∀ e e', e ∈ l → e' ∈ l →
            se_StateKeyTuple e = se_StateKeyTuple e' → e = e').
  { intros l Hl e e' He He' Htuple.
    rewrite Hl in He, He'.
    apply list_elem_of_lookup in He as [i Hi], He' as [j Hj].
    assert (i = j) as ->.
    { eapply NoDup_lookup; [exact Hnodup| |];
        unfold tuples_of; rewrite list_lookup_fmap.
      - by rewrite Hi.
      - rewrite Hj. simpl. by rewrite Htuple. }
    congruence. }
  destruct (entry_for t entries) as [e|] eqn:Hentry.
  - apply entry_for_Some in Hentry as [He Ht]. symmetry.
    apply entry_for_unique; [by rewrite <- Hperm|done|].
    intros e' He' Ht'. apply (Huniq entries'); [done|done|by rewrite <- Hperm|congruence].
  - destruct (entry_for t entries') as [e'|] eqn:Hentry'; [|done].
    apply entry_for_Some in Hentry' as [He' Ht'].
    assert (Hs : is_Some (entry_for t entries)).
    { apply entry_for_is_Some. subst t. apply list_elem_of_fmap_2. by rewrite Hperm. }
    rewrite Hentry in Hs. by destruct Hs.
Qed.

Lemma remove_dups_length `{EqDecision A} (l : list A) :
  length (remove_dups l) ≤ length l.
Proof.
  induction l as [|x l IH]; simpl; [done|].
  destruct (decide_rel elem_of x l); simpl; lia.
Qed.

Lemma paired_tuples_swap removed added :
  paired_tuples added removed = swap_sides <$> paired_tuples removed added.
Proof.
  apply map_eq. intros t. rewrite lookup_fmap, !paired_tuples_lookup.
  by destruct (entry_for t removed), (entry_for t added).
Qed.

Section ChangePairerMore.
Context `{!MapRange}.

Lemma pairUpChanges_NoDup removed added :
  NoDup (sc_StateKeyTuple <$> pairUpChanges removed added).
Proof. rewrite pairUpChanges_keys. apply NoDup_fst_map_to_list. Qed.

Lemma pairUpChanges_tuple_elem removed added t :
  t ∈ sc_StateKeyTuple <$> pairUpChanges removed added ↔
  t ∈ tuples_of removed ∨ t ∈ tuples_of added.
Proof.
  rewrite pairUpChanges_keys, list_elem_of_fmap. split.
  - intros ([k c] & -> & Hkc%elem_of_map_to_list). simpl.
    by apply paired_tuples_lookup_Some in Hkc as [? _].
  - intros Ht.
    exists (t, mkStateChange t (nid_for t removed) (nid_for t added)).
    split; [done|].
    apply elem_of_map_to_list, paired_tuples_lookup_Some. done.
Qed.

(** X1: when no entry of the delta carries the identifier [0], every change
    record has at least one of its two sides set. *)
Theorem pairUpChanges_some_side removed added :
  (∀ e, e ∈ removed ++ added → se_EventNID e ≠ 0%Z) →
  ∀ c, c ∈ pairUpChanges removed added →
       removedEventNID c ≠ 0%Z ∨ addedEventNID c ≠ 0%Z.
Proof.
  intros Hnonzero c Hc%pairUpChanges_elem.
  apply paired_tuples_lookup_Some in Hc as [Hin ->]. simpl.
  destruct Hin as [Hin|Hin]; [left|right];
    apply entry_for_elem in Hin as (e & Hentry & He & _);
    unfold nid_for; rewrite Hentry; simpl;
    apply Hnonzero, elem_of_app; auto.
Qed.

(** X2: pairing the delta the other way round gives the same change records
    with their sides exchanged. *)
Theorem pairUpChanges_swap removed added :
  pairUpChanges added removed ≡ₚ swap_sides <$> pairUpChanges removed added.
Proof.
  rewrite !pairUpChanges_perm, paired_tuples_swap, map_to_list_fmap.
  rewrite <- !list_fmap_compose.
  match goal with
  | |- ?l ≡ₚ ?r => assert (Heq : l = r); [|by rewrite Heq]
  end.
  apply list_fmap_ext. by intros i [k c] _.
Qed.

(** X3: on collections that hold each tuple once, the order of the entries
    does not matter: reordering [removed] and [added] reorders the change
    records at most. *)
Theorem pairUpChanges_unordered removed added removed' added' :
  NoDup (tuples_of removed) → NoDup (tuples_of added) →
  removed ≡ₚ removed' → added ≡ₚ added' →
  pairUpChanges removed added ≡ₚ pairUpChanges removed' added'.
Proof.
  intros Hr Ha Hpr Hpa.
  rewrite !pairUpChanges_perm.
  assert (Heq : paired_tuples removed added = paired_tuples removed' added');
    [|by rewrite Heq].
  apply map_eq. intros t. rewrite !paired_tuples_lookup. unfold nid_for.
  by rewrite (entry_for_permutation t removed removed'),
             (entry_for_permutation t added added').
Qed.

(** X4: there are as many change records as there are distinct tuples in the
    delta; in particular no more than there are entries. *)
Theorem pairUpChanges_length removed added :
  length (pairUpChanges removed added) =
    length (remove_dups (tuples_of removed ++ tuples_of added)) ∧
  length (pairUpChanges removed added) ≤ length removed + length added.
Proof.
  assert (Hlen : length (pairUpChanges removed added) =
                 length (remove_dups (tuples_of removed ++ tuples_of added))).
  { rewrite <- (length_fmap sc_StateKeyTuple).
    apply Permutation_length, NoDup_Permutation.
    - apply pairUpChanges_NoDup.
    - apply NoDup_remove_dups.
    - intros t. rewrite pairUpChanges_tuple_elem, elem_of_remove_dups, elem_of_app.
      done. }
  split; [done|]. rewrite Hlen.
  etrans; [apply remove_dups_length|].
  unfold tuples_of. by rewrite length_app, !length_fmap.
Qed.

End ChangePairerMore.

(** ** Beyond the specification: what is loaded, and for whom *)

Lemma append_matching {A} (P : A → Prop) `{!∀ x, Decision (P x)} (acc l : list A) :
  foldl (λ result c, if bool_decide (P c) then result ++ [c] else result) acc l
  = acc ++ filter P l.
Proof.
  revert acc. induction l as [|x l IH]; intros acc; simpl.
  - by rewrite app_nil_r.
  - rewrite IH, filter_cons. case_bool_decide.
    + rewrite decide_True by done. by rewrite <- app_assoc.
    + by rewrite decide_False by done.
Qed.

Lemma collect_eventNIDs_from (acc : list EventNID) changes n :
  n ∈ foldl (λ eventNIDs change,
               let eventNIDs :=
                 if bool_decide (addedEventNID change ≠ 0%Z)
                 then eventNIDs ++ [addedEventNID change] else eventNIDs in
               if bool_decide (removedEventNID change ≠ 0%Z)
               then eventNIDs ++ [removedEventNID change] else eventNIDs)
            acc changes
  ↔ n ∈ acc ∨
    (n ≠ 0%Z ∧ ∃ c, c ∈ changes ∧ (addedEventNID c = n ∨ removedEventNID c = n)).
Proof.
  revert acc. induction changes as [|change changes IH]; intros acc; simpl.
  - split; [by left|]. intros [?|(_ & c & Hc & _)]; [done|].
    by apply not_elem_of_nil in Hc.
  - rewrite IH. clear IH.
    assert (Hstep :
      n ∈ (if bool_decide (removedEventNID change ≠ 0%Z)
           then (if bool_decide (addedEventNID change ≠ 0%Z)
                 then acc ++ [addedEventNID change] else acc)
                ++ [removedEventNID change]
           else (if bool_decide (addedEventNID change ≠ 0%Z)
                 then acc ++ [addedEventNID change] else acc))
      ↔ n ∈ acc ∨
        (n ≠ 0%Z ∧ (addedEventNID change = n ∨ removedEventNID change = n))).
    { repeat case_bool_decide;
        rewrite ?elem_of_app, ?list_elem_of_singleton;
        intuition (subst; auto; lia). }
    rewrite Hstep. split.
    + intros [[?|(? & Hside)]|(? & c & ? & ?)]; [by left| |].
      * right. split; [done|]. exists change. split; [left|done].
      * right. split; [done|]. exists c. split; [by right|done].
    + intros [?|(? & c & [->|?]%elem_of_cons & ?)]; [by left; left| |].
      * left. by right.
      * right. split; [done|]. by exists c.
Qed.

Section WhatIsLoaded.
Context `{!MapRange}.
Variable MRoomMemberNID : EventTypeNID.

Lemma membershipChanges_filter removed added :
  membershipChanges MRoomMemberNID removed added =
  filter (λ c, skt_EventTypeNID (sc_StateKeyTuple c) = MRoomMemberNID)
         (pairUpChanges removed added).
Proof. unfold membershipChanges. simpl. by rewrite append_matching. Qed.

(** X5: the membership changes are the change records of the membership
    event type, in the order of the pairing, and no two of them are for the
    same target participant; so one reconciliation handles each participant
    at most once. *)
Theorem membershipChanges_one_per_target removed added :
  (∀ c, c ∈ membershipChanges MRoomMemberNID removed added ↔
        c ∈ pairUpChanges removed added ∧
        skt_EventTypeNID (sc_StateKeyTuple c) = MRoomMemberNID) ∧
  membershipChanges MRoomMemberNID removed added
    `sublist_of` pairUpChanges removed added ∧
  NoDup (target_of <$> membershipChanges MRoomMemberNID removed added).
Proof.
  rewrite membershipChanges_filter. split; [|split].
  - intros c. rewrite list_elem_of_filter. tauto.
  - apply sublist_filter.
  - unfold target_of.
    rewrite (list_fmap_compose sc_StateKeyTuple skt_EventStateKeyNID).
    apply NoDup_fmap_2_strong.
    + intros [ty k] [ty' k'] (c & Hc & Hin)%list_elem_of_fmap
             (c' & Hc' & Hin')%list_elem_of_fmap Hkey.
      apply list_elem_of_filter in Hin as [Hty _], Hin' as [Hty' _].
      rewrite <- Hc in Hty. rewrite <- Hc' in Hty'. simpl in *. congruence.
    + apply (sublist_NoDup _ (sc_StateKeyTuple <$> pairUpChanges removed added)).
      * apply pairUpChanges_NoDup.
      * apply fmap_sublist, sublist_filter.
Qed.

End WhatIsLoaded.

(** The identifiers collected from a list of changes are the sides of the
    changes that are set. *)
Lemma collect_eventNIDs_elem changes n :
  n ∈ collect_eventNIDs changes ↔
  n ≠ 0%Z ∧ ∃ c, c ∈ changes ∧ (addedEventNID c = n ∨ removedEventNID c = n).
Proof.
  unfold collect_eventNIDs. rewrite collect_eventNIDs_from.
  split; [|by right]. intros [Hnil|?]; [|done]. by apply not_elem_of_nil in Hnil.
Qed.

(** ** Beyond the specification: the transition handlers *)

Section HandlersMore.
Context {World Handle : Type}.
Context `{!MembershipUpdater World Handle}.
Context `{!RoomRecentEventsUpdater World Handle}.

Lemma append_retired_no_key add membership retired updates (w : World) :
  gomatrixserverlib.StateKey add = None →
  append_retired add membership retired updates w =
  (match retired with
   | [] => Returns updates
   | _ :: _ => Panics nil_dereference
   end, w).
Proof.
  intros Hkey. destruct retired as [|eventID retired]; simpl; [done|].
  unfold mbind, M_bind, deref. by rewrite Hkey.
Qed.

(** The three handlers, run on an added event that is there. *)
Lemma updateToInviteMembership_run mu add updates roomVersion (w : World) :
  updateToInviteMembership mu (Some add) updates roomVersion w =
  match SetToInvite mu add w with
  | (Err err, w1) => (Returns ([], Some err), w1)
  | (Ok needsSending, w1) =>
      (Returns (if needsSending
                then updates ++ [new_invite_record add roomVersion]
                else updates, None), w1)
  end.
Proof.
  unfold updateToInviteMembership. run_M.
  by destruct (SetToInvite mu add w) as [[[]|err] w1].
Qed.

Lemma updateToJoinMembership_run mu add updates (w : World) :
  updateToJoinMembership mu (Some add) updates w =
  match SetToJoin mu (gomatrixserverlib.Sender add) (gomatrixserverlib.EventID add)
                  (IsJoin mu w) w with
  | (Err err, w1) => (Returns ([], Some err), w1)
  | (Ok retired, w1) =>
      if IsJoin mu w then (Returns (updates, None), w1)
      else match append_retired add gomatrixserverlib.Join retired updates w1 with
           | (Returns updates', w2) => (Returns (updates', None), w2)
           | (Panics p, w2) => (Panics p, w2)
           end
  end.
Proof.
  unfold updateToJoinMembership. run_M.
  destruct (IsJoin mu w); by destruct (SetToJoin _ _ _ _ w) as [[retired|err] w1].
Qed.

Lemma updateToLeaveMembership_run mu add newMembership updates (w : World) :
  updateToLeaveMembership mu (Some add) newMembership updates w =
  if IsLeave mu w then (Returns (updates, None), w)
  else match SetToLeave mu (gomatrixserverlib.Sender add)
                        (gomatrixserverlib.EventID add) w with
       | (Err err, w1) => (Returns ([], Some err), w1)
       | (Ok retired, w1) =>
           match append_retired add newMembership retired updates w1 with
           | (Returns updates', w2) => (Returns (updates', None), w2)
           | (Panics p, w2) => (Panics p, w2)
           end
       end.
Proof.
  unfold updateToLeaveMembership. run_M.
  destruct (IsLeave mu w); [done|].
  by destruct (SetToLeave _ _ _ w) as [[retired|err] w1].
Qed.

(** X7: what the handlers do when they are handed no added event.  The
    invite and the join transition go through the pointer and panic, before
    any operation of the handle; the leave transition returns without
    touching the event when the participant has left already, and panics
    otherwise. *)
Theorem handlers_without_added_event mu updates roomVersion newMembership (w : World) :
  updateToInviteMembership mu None updates roomVersion w = (Panics nil_dereference, w) ∧
  updateToJoinMembership mu None updates w = (Panics nil_dereference, w) ∧
  updateToLeaveMembership mu None newMembership updates w =
    (if IsLeave mu w then Returns (updates, None) else Panics nil_dereference, w).
Proof.
  split; [done|]. split.
  - unfold updateToJoinMembership. run_M. by destruct (IsJoin mu w).
  - unfold updateToLeaveMembership. run_M. by destruct (IsLeave mu w).
Qed.

(** X8: a handler whose operation on the handle fails returns that error
    and no record: the records accumulated so far are not handed back. *)
Theorem handlers_propagate_errors mu add updates roomVersion newMembership err (w w1 : World) :
  (SetToInvite mu add w = (Err err, w1) →
   updateToInviteMembership mu (Some add) updates roomVersion w =
     (Returns ([], Some err), w1)) ∧
  (SetToJoin mu (gomatrixserverlib.Sender add) (gomatrixserverlib.EventID add)
             (IsJoin mu w) w = (Err err, w1) →
   updateToJoinMembership mu (Some add) updates w = (Returns ([], Some err), w1)) ∧
  (IsLeave mu w = false →
   SetToLeave mu (gomatrixserverlib.Sender add) (gomatrixserverlib.EventID add) w
     = (Err err, w1) →
   updateToLeaveMembership mu (Some add) newMembership updates w =
     (Returns ([], Some err), w1)).
Proof.
  split; [|split].
  - intros Hset. by rewrite updateToInviteMembership_run, Hset.
  - intros Hset. by rewrite updateToJoinMembership_run, Hset.
  - intros Hleave Hset. by rewrite updateToLeaveMembership_run, Hleave, Hset.
Qed.

(** X9: an added event without a state key.  The join and the leave
    transition read the state key once per retired invite, after the
    operation on the handle: with no invite to retire they return as usual,
    with one or more they panic, the store keeping the change the operation
    made. *)
Theorem retire_without_state_key mu add newMembership updates retired (w w1 : World) :
  gomatrixserverlib.StateKey add = None →
  (IsJoin mu w = false →
   SetToJoin mu (gomatrixserverlib.Sender add) (gomatrixserverlib.EventID add) false w
     = (Ok retired, w1) →
   updateToJoinMembership mu (Some add) updates w =
     (match retired with
      | [] => Returns (updates, None)
      | _ :: _ => Panics nil_dereference
      end, w1)) ∧
  (IsLeave mu w = false →
   SetToLeave mu (gomatrixserverlib.Sender add) (gomatrixserverlib.EventID add) w
     = (Ok retired, w1) →
   updateToLeaveMembership mu (Some add) newMembership updates w =
     (match retired with
      | [] => Returns (updates, None)
      | _ :: _ => Panics nil_dereference
      end, w1)).
Proof.
  intros Hkey. split.
  - intros Hjoin Hset.
    rewrite updateToJoinMembership_run, Hjoin, Hset, append_retired_no_key by done.
    by destruct retired.
  - intros Hleave Hset.
    rewrite updateToLeaveMembership_run, Hleave, Hset, append_retired_no_key by done.
    by destruct retired.
Qed.

End HandlersMore.

(** ** Beyond the specification: the membership resolver *)

Section ResolverMore.
Context {World Handle : Type}.
Context `{!MembershipUpdater World Handle}.
Context `{!RoomRecentEventsUpdater World Handle}.
Context `{!Database World}.

(** Every path of [updateMembership]. *)
Lemma updateMembership_paths target remove add updates (w : World) :
  updateMembership target remove add updates w =
  match classify remove with
  | Err err => (Returns ([], Some err), w)
  | Ok old =>
      match classify add with
      | Err err => (Returns ([], Some err), w)
      | Ok new =>
          if decide (old = new ∧ new ≠ gomatrixserverlib.Join)
          then (Returns (updates, None), w)
          else match add with
               | None =>
                   (Returns (updates, Some (errors_New "add should not be nil")), w)
               | Some ae =>
                   match OpenMembershipUpdater target w with
                   | (Err err, w1) => (Returns ([], Some err), w1)
                   | (Ok mu, w1) => dispatch mu ae new updates w1
                   end
               end
      end
  end.
Proof.
  destruct (classify remove) as [old|err] eqn:Hold.
  2:{ destruct remove as [re|]; [|done].
      by apply updateMembership_removed_unparsable. }
  destruct (classify add) as [new|err] eqn:Hnew.
  2:{ destruct add as [ae|]; [|done].
      by eapply updateMembership_added_unparsable. }
  destruct (decide (old = new ∧ new ≠ gomatrixserverlib.Join)) as [[Heq Hjoin]|Hgo].
  { by eapply updateMembership_same. }
  assert (Hchange : old ≠ new ∨ new = gomatrixserverlib.Join).
  { destruct (decide (old = new)); [|by left].
    destruct (decide (new = gomatrixserverlib.Join)); [by right|tauto]. }
  destruct add as [ae|].
  - by eapply updateMembership_opens.
  - simpl in Hnew. injection Hnew as <-.
    destruct Hchange as [Hne|Hjoin]; [|done].
    by eapply updateMembership_no_add.
Qed.

Lemma append_retired_outcome add membership retired updates r (w w1 : World) :
  append_retired add membership retired updates w = (r, w1) →
  w1 = w ∧
  ((∃ target, gomatrixserverlib.StateKey add = Some target ∧
      r = Returns (updates ++
                   (retire_invite_record membership (gomatrixserverlib.EventID add) target
                      <$> retired))) ∨
   (gomatrixserverlib.StateKey add = None ∧ retired = [] ∧ r = Returns updates) ∨
   (gomatrixserverlib.StateKey add = None ∧ r = Panics nil_dereference)).
Proof.
  destruct (gomatrixserverlib.StateKey add) as [target|] eqn:Hkey.
  - rewrite (append_retired_records _ _ target) by done.
    intros [= <- <-]. split; [done|]. left. eauto.
  - rewrite append_retired_no_key by done.
    destruct retired; intros [= <- <-]; split; auto.
Qed.

(** What a successful [dispatch] returns. *)
Lemma dispatch_success mu ae new updates recs (w w1 : World) :
  dispatch mu ae new updates w = (Returns (recs, None), w1) →
  ∃ appended, recs = updates ++ appended ∧ Forall (appended_for ae new) appended.
Proof.
  unfold dispatch. case_bool_decide as Hinvite.
  { subst new. rewrite updateToInviteMembership_run.
    destruct (SetToInvite mu ae w) as [[[]|err] w2]; intros [= <- <-].
    - eexists. split; [done|]. apply Forall_singleton. left. eauto.
    - exists []. by rewrite app_nil_r. }
  assert (Hretired : ∀ retired updates' (w2 w3 : World),
            append_retired ae new retired updates w2 = (Returns updates', w3) →
            ∃ appended, updates' = updates ++ appended ∧
                        Forall (appended_for ae new) appended).
  { intros retired updates' w2 w3 (_ & [(t & Hkey & [= ->])|[(_ & _ & [= ->])|(_ & [=])]])
      %append_retired_outcome.
    - eexists. split; [done|]. apply Forall_fmap, Forall_true.
      intros eventID. right. split; [done|]. eauto.
    - exists []. by rewrite app_nil_r. }
  case_bool_decide as Hjoin.
  { subst new. rewrite updateToJoinMembership_run.
    destruct (SetToJoin _ _ _ _ w) as [[retired|err] w2]; [|by intros [=]].
    destruct (IsJoin mu w).
    - intros [= <- <-]. exists []. by rewrite app_nil_r.
    - destruct (append_retired _ _ _ _ w2) as [[updates'|p] w3] eqn:Happend;
        intros [= <- <-]. by eapply Hretired. }
  destruct (_ || _); [|by intros [=]].
  rewrite updateToLeaveMembership_run.
  destruct (IsLeave mu w).
  { intros [= <- <-]. exists []. by rewrite app_nil_r. }
  destruct (SetToLeave _ _ _ w) as [[retired|err] w2]; [|by intros [=]].
  destruct (append_retired _ _ _ _ w2) as [[updates'|p] w3] eqn:Happend;
    intros [= <- <-]. by eapply Hretired.
Qed.

(** X10: [updateMembership] only ever appends.  When it returns without an
    error, the records it returns are the accumulator followed by the records
    of this change, and each of these is the "new invite" record of the added
    event (new membership invite) or a "retire invite" record tagged with the
    new membership, the added event and its state key. *)
Theorem updateMembership_appends target remove add updates recs (w w1 : World) :
  updateMembership target remove add updates w = (Returns (recs, None), w1) →
  ∃ appended,
    recs = updates ++ appended ∧
    Forall (λ o, ∃ ae new, add = Some ae ∧
                           gomatrixserverlib.Membership ae = Ok new ∧
                           appended_for ae new o) appended.
Proof.
  rewrite updateMembership_paths.
  destruct (classify remove) as [old|err]; [|by intros [=]].
  destruct (classify add) as [new|err] eqn:Hnew; [|by intros [=]].
  case_decide.
  { intros [= <- <-]. exists []. by rewrite app_nil_r. }
  destruct add as [ae|]; [|by intros [=]].
  destruct (OpenMembershipUpdater target w) as [[mu|err] w2]; [|by intros [=]].
  intros (appended & -> & Hshape)%dispatch_success.
  exists appended. split; [done|].
  eapply Forall_impl; [exact Hshape|]. intros o Ho. by exists ae, new.
Qed.

(** X11: the only panics of [updateMembership].  It panics on a new
    membership outside the enumeration, and on an added event without a state
    key when invites are to be retired; it never panics for want of an added
    event, nor on a known membership carried by an event with a state key. *)
Theorem updateMembership_panics_only target remove add updates p (w w1 : World) :
  updateMembership target remove add updates w = (Panics p, w1) →
  ∃ ae new,
    add = Some ae ∧ gomatrixserverlib.Membership ae = Ok new ∧
    ((¬ known_membership new ∧ p = invalid_membership new) ∨
     (known_membership new ∧ gomatrixserverlib.StateKey ae = None ∧
      p = nil_dereference)).
Proof.
  rewrite updateMembership_paths.
  destruct (classify remove) as [old|err]; [|by intros [=]].
  destruct (classify add) as [new|err] eqn:Hnew; [|by intros [=]].
  case_decide; [by intros [=]|].
  destruct add as [ae|]; [|by intros [=]].
  destruct (OpenMembershipUpdater target w) as [[mu|err] w2]; [|by intros [=]].
  intros Hpanic. exists ae, new. split; [done|]. split; [done|].
  revert Hpanic. unfold dispatch, known_membership.
  case_bool_decide as Hinvite.
  { rewrite updateToInviteMembership_run.
    by destruct (SetToInvite mu ae w2) as [[[]|err] w3]. }
  case_bool_decide as Hjoin.
  { rewrite updateToJoinMembership_run.
    destruct (SetToJoin _ _ _ _ w2) as [[retired|err] w3]; [|by intros [=]].
    destruct (IsJoin mu w2); [by intros [=]|].
    destruct (append_retired _ _ _ _ w3) as [[updates'|p'] w4] eqn:Happend;
      [by intros [=]|].
    intros [= -> ->].
    apply append_retired_outcome in Happend
      as (_ & [(? & _ & [=])|[(_ & _ & [=])|(Hkey & [= ->])]]).
    right. auto. }
  destruct (bool_decide (new = gomatrixserverlib.Leave)
            || bool_decide (new = gomatrixserverlib.Ban)) eqn:Hleave.
  - apply orb_true_iff in Hleave.
    rewrite !bool_decide_eq_true in Hleave.
    rewrite updateToLeaveMembership_run.
    destruct (IsLeave mu w2); [by intros [=]|].
    destruct (SetToLeave _ _ _ w2) as [[retired|err] w3]; [|by intros [=]].
    destruct (append_retired _ _ _ _ w3) as [[updates'|p'] w4] eqn:Happend;
      [by intros [=]|].
    intros [= -> ->].
    apply append_retired_outcome in Happend
      as (_ & [(? & _ & [=])|[(_ & _ & [=])|(Hkey & [= ->])]]).
    right. tauto.
  - apply orb_false_iff in Hleave.
    rewrite !bool_decide_eq_false in Hleave.
    intros [= <- <-]. left. tauto.
Qed.

(** X12: an invite, through [updateMembership].  When the old membership is
    not invite and the handle opens, the room version is read from the
    updater, [SetToInvite] is run, and the "new invite" record carries that
    room version. *)
Theorem updateMembership_invite
    target remove ae updates old mu (needsSending : bool) (w w1 w2 : World) :
  classify remove = Ok old →
  gomatrixserverlib.Membership ae = Ok gomatrixserverlib.Invite →
  old ≠ gomatrixserverlib.Invite →
  OpenMembershipUpdater target w = (Ok mu, w1) →
  SetToInvite mu ae w1 = (Ok needsSending, w2) →
  updateMembership target remove (Some ae) updates w =
  (Returns (if needsSending
            then updates ++ [new_invite_record ae (RoomVersion w1)]
            else updates, None), w2).
Proof.
  intros Hold Hnew Hne Hopen Hset.
  rewrite (updateMembership_opens _ _ _ _ old gomatrixserverlib.Invite), Hopen
    by (done || by left).
  unfold dispatch. simpl.
  by rewrite updateToInviteMembership_run, Hset.
Qed.

(** X13: a join, through [updateMembership], whatever the old membership
    (join included).  The handle is opened; [SetToJoin] is told whether the
    participant is joined already, in which case nothing is appended, and
    otherwise one "retire invite" record per retired invite is. *)
Theorem updateMembership_join
    target remove ae key updates old mu retired (w w1 w2 : World) :
  classify remove = Ok old →
  gomatrixserverlib.Membership ae = Ok gomatrixserverlib.Join →
  gomatrixserverlib.StateKey ae = Some key →
  OpenMembershipUpdater target w = (Ok mu, w1) →
  SetToJoin mu (gomatrixserverlib.Sender ae) (gomatrixserverlib.EventID ae)
            (IsJoin mu w1) w1 = (Ok retired, w2) →
  updateMembership target remove (Some ae) updates w =
  (Returns (if IsJoin mu w1 then updates
            else updates ++
                 (retire_invite_record gomatrixserverlib.Join
                    (gomatrixserverlib.EventID ae) key <$> retired),
            None), w2).
Proof.
  intros Hold Hnew Hkey Hopen Hset.
  rewrite (updateMembership_opens _ _ _ _ old gomatrixserverlib.Join), Hopen
    by (done || by right).
  unfold dispatch. simpl.
  rewrite updateToJoinMembership_run, Hset.
  destruct (IsJoin mu w1); [done|].
  by rewrite (append_retired_records _ _ key).
Qed.

(** X14: a leave or a ban, through [updateMembership].  When the membership
    changes and the participant has not left already, [SetToLeave] is run and
    the "retire invite" records carry the new membership itself: a ban is
    recorded as a ban, not as a leave.  When the handle reports that the
    participant has left already, nothing is done beyond opening it. *)
Theorem updateMembership_leave_or_ban
    target remove ae key updates old new mu retired (w w1 w2 : World) :
  classify remove = Ok old →
  gomatrixserverlib.Membership ae = Ok new →
  new = gomatrixserverlib.Leave ∨ new = gomatrixserverlib.Ban →
  old ≠ new →
  gomatrixserverlib.StateKey ae = Some key →
  OpenMembershipUpdater target w = (Ok mu, w1) →
  (IsLeave mu w1 = true →
   updateMembership target remove (Some ae) updates w = (Returns (updates, None), w1)) ∧
  (IsLeave mu w1 = false →
   SetToLeave mu (gomatrixserverlib.Sender ae) (gomatrixserverlib.EventID ae) w1
     = (Ok retired, w2) →
   updateMembership target remove (Some ae) updates w =
   (Returns (updates ++
             (retire_invite_record new (gomatrixserverlib.EventID ae) key <$> retired),
             None), w2)).
Proof.
  intros Hold Hnew Hkind Hne Hkey Hopen.
  assert (Hswitch : ∀ w', dispatch mu ae new updates w' =
                          updateToLeaveMembership mu (Some ae) new updates w')
    by (by destruct Hkind as [->| ->]).
  split.
  - intros Hleft.
    rewrite (updateMembership_opens _ _ _ _ old new), Hopen by (done || by left).
    by rewrite Hswitch, updateToLeaveMembership_run, Hleft.
  - intros Hleft Hset.
    rewrite (updateMembership_opens _ _ _ _ old new), Hopen by (done || by left).
    rewrite Hswitch, updateToLeaveMembership_run, Hleft, Hset.
    by rewrite (append_retired_records _ _ key).
Qed.

(** X15: the loop over the changes composes.  Running it on a list of
    changes is running it on a first part and, if that part returns without
    an error, on the rest with the records and the store the first part
    left; if the first part stops on an error or panics, so does the whole. *)
Theorem updateMemberships_loop_composes events first rest updates (w : World) :
  (∀ updates1 w1,
     updateMemberships_loop events first updates w = (Returns (updates1, None), w1) →
     updateMemberships_loop events (first ++ rest) updates w =
     updateMemberships_loop events rest updates1 w1) ∧
  (∀ updates1 err w1,
     updateMemberships_loop events first updates w = (Returns (updates1, Some err), w1) →
     updateMemberships_loop events (first ++ rest) updates w =
     (Returns ([], Some err), w1)) ∧
  (∀ p w1,
     updateMemberships_loop events first updates w = (Panics p, w1) →
     updateMemberships_loop events (first ++ rest) updates w = (Panics p, w1)).
Proof.
  split; [|split].
  - intros updates1 w1 Hfirst. by rewrite updateMemberships_loop_app, Hfirst.
  - intros updates1 err w1 Hfirst.
    rewrite updateMemberships_loop_app, Hfirst.
    by rewrite (updateMemberships_loop_all_or_nothing _ _ _ _ _ _ _ Hfirst).
  - intros p w1 Hfirst. by rewrite updateMemberships_loop_app, Hfirst.
Qed.

Lemma well_formed_appended ae new o :
  appended_for ae new o → well_formed_record o.
Proof.
  intros [(_ & roomVersion & ->)|(_ & target & eventID & _ & ->)].
  - left. simpl. eauto.
  - right. simpl. eauto.
Qed.

Lemma updateMembership_well_formed target remove add updates recs (w w1 : World) :
  updateMembership target remove add updates w = (Returns (recs, None), w1) →
  ∃ appended, recs = updates ++ appended ∧ Forall well_formed_record appended.
Proof.
  rewrite updateMembership_paths.
  destruct (classify remove) as [old|err]; [|by intros [=]].
  destruct (classify add) as [new|err]; [|by intros [=]].
  case_decide.
  { intros [= <- <-]. exists []. by rewrite app_nil_r. }
  destruct add as [ae|]; [|by intros [=]].
  destruct (OpenMembershipUpdater target w) as [[mu|err] w2]; [|by intros [=]].
  intros (appended & -> & Hshape)%dispatch_success.
  exists appended. split; [done|].
  eapply Forall_impl; [exact Hshape|]. apply well_formed_appended.
Qed.

Lemma updateMemberships_loop_success events changes updates recs (w w1 : World) :
  updateMemberships_loop events changes updates w = (Returns (recs, None), w1) →
  ∃ appended, recs = updates ++ appended ∧ Forall well_formed_record appended.
Proof.
  revert updates w. induction changes as [|change changes IH]; intros updates w.
  - simpl. unfold mret, M_ret. intros [= <- <-]. exists []. by rewrite app_nil_r.
  - simpl. unfold mbind, M_bind.
    destruct (updateMembership _ _ _ updates w) as [[[updates1 [err|]]|p] w2] eqn:Hstep;
      [by intros [=]| |by intros [=]].
    apply updateMembership_well_formed in Hstep as (appended1 & -> & Hshape1).
    intros (appended2 & -> & Hshape2)%IH.
    exists (appended1 ++ appended2). split; [by rewrite app_assoc|].
    by apply Forall_app.
Qed.

End ResolverMore.

Section ReconciliationMore.
Context {World Handle : Type}.
Context `{!MembershipUpdater World Handle}.
Context `{!RoomRecentEventsUpdater World Handle}.
Context `{!Database World}.
Context `{!MapRange}.
Variable MRoomMemberNID : EventTypeNID.

(** X6: what [updateMemberships] hands to [db.Events].  The call starts
    with one batch load, and what follows is the loop run on the events it
    returned; the loop has no access to the database.  The identifiers of
    that load are the sides of the membership changes that are set: an
    identifier is asked for exactly when it is not [0] and is the added or
    the removed side of some membership change. *)
Theorem updateMemberships_loads removed added (w : World) :
  updateMemberships MRoomMemberNID removed added w =
    match Events (collect_eventNIDs (membershipChanges MRoomMemberNID removed added)) w with
    | (Err err, w0) => (Returns ([], Some err), w0)
    | (Ok events, w0) =>
        updateMemberships_loop events
          (membershipChanges MRoomMemberNID removed added) [] w0
    end ∧
  (∀ n, n ∈ collect_eventNIDs (membershipChanges MRoomMemberNID removed added) ↔
        n ≠ 0%Z ∧
        ∃ c, c ∈ membershipChanges MRoomMemberNID removed added ∧
             (addedEventNID c = n ∨ removedEventNID c = n)).
Proof.
  split.
  - unfold updateMemberships. run_M.
    by destruct (Events _ w) as [[events|err] w0].
  - intros n. apply collect_eventNIDs_elem.
Qed.

(** X16: the records of a reconciliation that succeeds are notifications
    about invites and nothing else: each is of the "new invite" type with the
    content of a new invite, or of the "retire invite" type with the content
    of a retirement. *)
Theorem updateMemberships_records removed added recs (w w1 : World) :
  updateMemberships MRoomMemberNID removed added w = (Returns (recs, None), w1) →
  Forall well_formed_record recs.
Proof.
  unfold updateMemberships. run_M.
  destruct (Events _ w) as [[events|err] w0]; [|by intros [=]].
  by intros (appended & -> & Hshape)%updateMemberships_loop_success.
Qed.

(** X17: a delta with no entry of the membership event type.  The batch
    load is still run, with no identifier to load; no handle is opened, and
    the call returns no record, with the error of the load if it failed. *)
Theorem updateMemberships_without_membership removed added (w : World) :
  (∀ e, e ∈ removed ++ added →
        skt_EventTypeNID (se_StateKeyTuple e) ≠ MRoomMemberNID) →
  updateMemberships MRoomMemberNID removed added w =
  match Events [] w with
  | (Ok _, w1) => (Returns ([], None), w1)
  | (Err err, w1) => (Returns ([], Some err), w1)
  end.
Proof.
  intros Hother.
  assert (Hnone : membershipChanges MRoomMemberNID removed added = []).
  { rewrite membershipChanges_filter.
    destruct (filter _ (pairUpChanges removed added)) as [|c others] eqn:Hfilter;
      [done|exfalso].
    assert (Hc : c ∈ filter
                   (λ c, skt_EventTypeNID (sc_StateKeyTuple c) = MRoomMemberNID)
                   (pairUpChanges removed added))
      by (rewrite Hfilter; left).
    apply list_elem_of_filter in Hc as [Hty Hc].
    assert (Hin : sc_StateKeyTuple c ∈ sc_StateKeyTuple <$> pairUpChanges removed added)
      by (by apply list_elem_of_fmap_2).
    apply pairUpChanges_tuple_elem in Hin.
    rewrite <- elem_of_app in Hin. unfold tuples_of in Hin.
    rewrite <- fmap_app in Hin.
    apply list_elem_of_fmap in Hin as (e & Hte & He).
    apply (Hother e He). by rewrite <- Hte. }
  unfold updateMemberships. rewrite Hnone. run_M.
  change (collect_eventNIDs []) with (@nil EventNID).
  by destruct (Events [] w) as [[events|err] w1].
Qed.

End ReconciliationMore.

(** ** The properties at work in the sample room *)

Import reference.
#[local] Existing Instance canonical_range.

(** Splits a conjunction into its conjuncts, and nothing else. *)
Ltac conjuncts := repeat match goal with |- _ ∧ _ => split end.

(** The pairer on a delta with a repeated tuple, a tuple on both sides and
    tuples on one side only, the map being iterated in the canonical order. *)
Example pairUpChanges_sample :
  pairUpChanges
    [mkStateEntry alice_slot 11; mkStateEntry (mkStateKeyTuple 1 0) 3]
    [mkStateEntry alice_slot 12; mkStateEntry (mkStateKeyTuple 2 0) 7;
     mkStateEntry alice_slot 14]
  = [mkStateChange (mkStateKeyTuple 2 0) 0 7;
     mkStateChange (mkStateKeyTuple 1 0) 3 0;
     mkStateChange alice_slot 11 14].
Proof. vm_compute. reflexivity. Qed.

(** The same invite processed twice for Alice, from the fresh room. *)
Lemma updateToInviteMembership_dedup_witness :
  let invited := room {[alice_NID := invited_row]} None
                   [called_SetToInvite alice_NID "$invite"] in
  let reinvited := room {[alice_NID := invited_row]} None
                     [called_SetToInvite alice_NID "$invite";
                      called_SetToInvite alice_NID "$invite"] in
  SetToInvite alice_NID invite_event fresh_room = (Ok true, invited) ∧
  SetToInvite alice_NID invite_event invited = (Ok false, reinvited) ∧
  updateToInviteMembership alice_NID (Some invite_event) [] "5" fresh_room =
    (Returns ([new_invite_record invite_event "5"], None), invited) ∧
  updateToInviteMembership alice_NID (Some invite_event)
    [new_invite_record invite_event "5"] "5" invited =
    (Returns ([new_invite_record invite_event "5"], None), reinvited).
Proof.
  intros invited reinvited.
  assert (Hnew : SetToInvite alice_NID invite_event fresh_room = (Ok true, invited))
    by (vm_compute; reflexivity).
  assert (Hknown : SetToInvite alice_NID invite_event invited = (Ok false, reinvited))
    by (vm_compute; reflexivity).
  destruct (updateToInviteMembership_dedup alice_NID invite_event [] "5" true
              fresh_room invited Hnew) as [Hfirst Hnext].
  destruct (Hnext reinvited eq_refl Hknown) as [Hsecond _].
  conjuncts; assumption.
Defined.

(** Alice, invited, joins, and her join is processed again. *)
Lemma updateToJoinMembership_retires_witness :
  let invited := room {[alice_NID := invited_row]} None [] in
  let joined := room {[alice_NID := joined_row]} None
                  [called_SetToJoin alice_NID alice "$join" false] in
  let rejoined := room {[alice_NID := joined_row]} None
                    [called_SetToJoin alice_NID alice "$join" false;
                     called_SetToJoin alice_NID alice "$join" true] in
  let retirement :=
    retire_invite_record gomatrixserverlib.Join "$join" alice "$invite" in
  IsJoin alice_NID invited = false ∧
  SetToJoin alice_NID alice "$join" false invited = (Ok ["$invite"], joined) ∧
  IsJoin alice_NID joined = true ∧
  SetToJoin alice_NID alice "$join" true joined = (Ok [], rejoined) ∧
  updateToJoinMembership alice_NID (Some join_event) [] invited =
    (Returns ([retirement], None), joined) ∧
  updateToJoinMembership alice_NID (Some join_event) [retirement] joined =
    (Returns ([retirement], None), rejoined).
Proof.
  intros invited joined rejoined retirement.
  assert (Hnot : IsJoin alice_NID invited = false) by (vm_compute; reflexivity).
  assert (Hset : SetToJoin alice_NID (gomatrixserverlib.Sender join_event)
                   (gomatrixserverlib.EventID join_event) false invited
                 = (Ok ["$invite"], joined))
    by (vm_compute; reflexivity).
  assert (Hnow : IsJoin alice_NID joined = true) by (vm_compute; reflexivity).
  assert (Hagain : SetToJoin alice_NID (gomatrixserverlib.Sender join_event)
                     (gomatrixserverlib.EventID join_event) true joined
                   = (Ok [], rejoined))
    by (vm_compute; reflexivity).
  destruct (updateToJoinMembership_retires alice_NID join_event alice [] ["$invite"]
              false invited joined eq_refl Hnot Hset) as [_ Hnext].
  destruct (Hnext "$invite" [] rejoined eq_refl eq_refl Hnow Hagain)
    as (Hfirst & Hsecond & _).
  conjuncts; assumption.
Defined.

(** Alice, invited, is banned, and the ban is processed again. *)
Lemma updateToLeaveMembership_retires_witness :
  let invited := room {[alice_NID := invited_row]} None [] in
  let banned := room {[alice_NID := banned_row]} None
                  [called_SetToLeave alice_NID bob "$ban"] in
  let retirement :=
    retire_invite_record gomatrixserverlib.Ban "$ban" alice "$invite" in
  IsLeave alice_NID invited = false ∧
  SetToLeave alice_NID bob "$ban" invited = (Ok ["$invite"], banned) ∧
  updateToLeaveMembership alice_NID (Some ban_event) gomatrixserverlib.Ban [] invited =
    (Returns ([retirement], None), banned) ∧
  IsLeave alice_NID banned = true ∧
  updateToLeaveMembership alice_NID (Some ban_event) gomatrixserverlib.Ban
    [retirement] banned =
    (Returns ([retirement], None), banned).
Proof.
  intros invited banned retirement.
  assert (Hnot : IsLeave alice_NID invited = false) by (vm_compute; reflexivity).
  assert (Hset : SetToLeave alice_NID (gomatrixserverlib.Sender ban_event)
                   (gomatrixserverlib.EventID ban_event) invited
                 = (Ok ["$invite"], banned))
    by (vm_compute; reflexivity).
  assert (Hnow : IsLeave alice_NID banned = true) by (vm_compute; reflexivity).
  destruct (updateToLeaveMembership_retires alice_NID ban_event alice
              gomatrixserverlib.Ban [] invited) as [_ Hleaving].
  destruct (Hleaving ["$invite"] banned Hnot Hset eq_refl) as (Hfirst & _ & _).
  destruct (updateToLeaveMembership_retires alice_NID ban_event alice
              gomatrixserverlib.Ban [retirement] banned) as [Hleft _].
  pose proof (Hleft Hnow) as Hsecond.
  conjuncts; assumption.
Defined.

(** Leave to leave and ban to ban are skipped, and the store sees no call;
    join to join goes to the store. *)
Lemma updateMembership_noop_witness :
  let joined := room {[alice_NID := joined_row]} None [] in
  let updated := room {[alice_NID := joined_row]} None
                   [called_MembershipUpdater alice_NID;
                    called_SetToJoin alice_NID alice "$join" true] in
  updateMembership alice_NID None (Some leave_event) [] fresh_room =
    (Returns ([], None), fresh_room) ∧
  updateMembership alice_NID (Some ban_event) (Some ban_event) [] fresh_room =
    (Returns ([], None), fresh_room) ∧
  calls fresh_room = [] ∧
  updateMembership alice_NID (Some join_event) (Some join_event) [] joined =
    (Returns ([], None), updated).
Proof.
  intros joined updated.
  destruct (updateMembership_noop alice_NID None (Some leave_event) []
              gomatrixserverlib.Leave gomatrixserverlib.Leave fresh_room
              eq_refl eq_refl eq_refl) as [Hleave _].
  destruct (updateMembership_noop alice_NID (Some ban_event) (Some ban_event) []
              gomatrixserverlib.Ban gomatrixserverlib.Ban fresh_room
              eq_refl eq_refl eq_refl) as [Hban _].
  destruct (updateMembership_noop alice_NID (Some join_event) (Some join_event) []
              gomatrixserverlib.Join gomatrixserverlib.Join joined
              eq_refl eq_refl eq_refl) as [_ Hjoin].
  destruct (Hjoin eq_refl) as (ae & [= <-] & Hrun).
  assert (Hleave' := Hleave ltac:(discriminate)).
  assert (Hban' := Hban ltac:(discriminate)).
  assert (Hrun' : updateMembership alice_NID (Some join_event) (Some join_event) [] joined
                  = (Returns ([], None), updated))
    by (rewrite Hrun; vm_compute; reflexivity).
  conjuncts; first [assumption | reflexivity].
Defined.

(** Alice's invite is removed and nothing is added. *)
Lemma updateMembership_missing_add_witness :
  classify (Some invite_event) = Ok gomatrixserverlib.Invite ∧
  updateMembership alice_NID (Some invite_event) None [] fresh_room =
    (Returns ([], Some (errors_New "add should not be nil")), fresh_room) ∧
  updateMemberships_loop sample_events
    [mkStateChange alice_slot 11 0; mkStateChange alice_slot 11 12]
    [] fresh_room =
    (Returns ([], Some (errors_New "add should not be nil")), fresh_room).
Proof.
  destruct (updateMembership_missing_add alice_NID (Some invite_event) []
              gomatrixserverlib.Invite fresh_room eq_refl ltac:(discriminate))
    as [Hrun Hloop].
  pose proof (Hloop sample_events (mkStateChange alice_slot 11 0)
                [mkStateChange alice_slot 11 12] eq_refl eq_refl eq_refl) as Hstop.
  conjuncts; first [assumption | reflexivity].
Defined.

(** A membership outside the enumeration. *)
Lemma unknown_knock : ¬ known_membership "knock".
Proof. intros [H|[H|[H|H]]]; discriminate H. Qed.

(** An added event that declares the membership "knock": a panic once the
    handle is open, and a skipped change when the removed event declares the
    same. *)
Lemma updateMembership_invalid_membership_witness :
  classify None = Ok gomatrixserverlib.Leave ∧
  gomatrixserverlib.Membership knock_event = Ok "knock" ∧
  updateMembership alice_NID None (Some knock_event) [] fresh_room =
    (Panics (invalid_membership "knock"),
     room ∅ None [called_MembershipUpdater alice_NID]) ∧
  updateMembership alice_NID (Some knock_event) (Some knock_event) [] fresh_room =
    (Returns ([], None), fresh_room).
Proof.
  pose proof (updateMembership_invalid_membership alice_NID None knock_event []
                gomatrixserverlib.Leave "knock" fresh_room
                eq_refl eq_refl unknown_knock) as Hpanic.
  pose proof (updateMembership_invalid_membership alice_NID (Some knock_event)
                knock_event [] "knock" "knock" fresh_room
                eq_refl eq_refl unknown_knock) as Hskip.
  conjuncts; [reflexivity|reflexivity| |].
  - rewrite Hpanic. vm_compute. reflexivity.
  - rewrite Hskip. vm_compute. reflexivity.
Defined.

(** The claim C8 as the specification words it fails here: the added event
    declares the membership "knock", and [updateMembership] panics where
    the claim has it return an error of a kind of its own. *)
Lemma updateMembership_invalid_membership_counterexample :
  ¬ known_membership "knock" ∧
  updateMembership alice_NID None (Some knock_event) [] fresh_room =
    (Panics (invalid_membership "knock"),
     room ∅ None [called_MembershipUpdater alice_NID]) ∧
  ¬ (∃ recs err w,
       updateMembership alice_NID None (Some knock_event) [] fresh_room =
       (Returns (recs, Some err), w)).
Proof.
  assert (Hrun : updateMembership alice_NID None (Some knock_event) [] fresh_room =
                 (Panics (invalid_membership "knock"),
                  room ∅ None [called_MembershipUpdater alice_NID]))
    by (vm_compute; reflexivity).
  split; [exact unknown_knock|]. split; [exact Hrun|].
  intros (recs & err & w & Hreturns). rewrite Hrun in Hreturns. discriminate Hreturns.
Qed.

(** Events whose membership cannot be read, on either side, the leave
    default of the absent sides, a membership that is a number, and a
    membership that is not there. *)
Lemma updateMembership_classification_witness :
  classify (Some unreadable_event) = Err unreadable_error ∧
  updateMembership alice_NID (Some unreadable_event) (Some join_event) [] fresh_room =
    (Returns ([], Some unreadable_error), fresh_room) ∧
  updateMembership alice_NID (Some invite_event) (Some unreadable_event) [] fresh_room =
    (Returns ([], Some unreadable_error), fresh_room) ∧
  updateMemberships_loop sample_events [mkStateChange alice_slot 16 12] [] fresh_room =
    (Returns ([], Some unreadable_error), fresh_room) ∧
  updateMembership alice_NID None (Some invite_event) [] fresh_room =
    updateMembership alice_NID (Some leave_event) (Some invite_event) [] fresh_room ∧
  updateMembership alice_NID None None [] fresh_room = (Returns ([], None), fresh_room) ∧
  classify (Some (event_of number_member_body)) = Err number_member_error ∧
  updateMembership alice_NID (Some invite_event) (Some (event_of number_member_body)) []
    fresh_room = (Returns ([], Some number_member_error), fresh_room) ∧
  classify (Some (event_of blank_member_body)) = Ok EmptyString ∧
  updateMembership alice_NID None (Some (event_of blank_member_body)) [] fresh_room =
    (Panics (invalid_membership EmptyString),
     room ∅ None [called_MembershipUpdater alice_NID]).
Proof.
  destruct (updateMembership_classification alice_NID (Some unreadable_event)
              (Some join_event) [] fresh_room) as (Hremoved & _ & Hloop & _ & _).
  destruct (updateMembership_classification alice_NID (Some invite_event)
              (Some unreadable_event) [] fresh_room) as (_ & Hadded & _ & _ & _).
  destruct (updateMembership_classification alice_NID None
              (Some invite_event) [] fresh_room) as (_ & _ & _ & Hdefault & _).
  destruct (updateMembership_classification alice_NID None
              None [] fresh_room) as (_ & _ & _ & _ & Hnone & Herrors & Habsent).
  destruct (updateMembership_classification alice_NID (Some invite_event)
              (Some (event_of number_member_body)) [] fresh_room)
    as (_ & Hnumber & _).
  pose proof (Hremoved unreadable_error eq_refl) as H1.
  pose proof (Hadded gomatrixserverlib.Invite unreadable_error eq_refl eq_refl) as H2.
  pose proof (Hloop unreadable_error sample_events (mkStateChange alice_slot 16 12) []
                eq_refl eq_refl eq_refl (or_introl eq_refl)) as H3.
  pose proof (Hdefault leave_event eq_refl) as H4.
  pose proof (Hnone gomatrixserverlib.Leave eq_refl) as H5.
  assert (H6 : classify (Some (event_of number_member_body)) = Err number_member_error).
  { apply Herrors. right. split; reflexivity. }
  pose proof (Hnumber gomatrixserverlib.Invite number_member_error eq_refl H6) as H7.
  destruct (Habsent blank_member_body gomatrixserverlib.Leave
              (conj eq_refl eq_refl) eq_refl) as [H8 H9].
  assert (H10 : updateMembership alice_NID None (Some (event_of blank_member_body)) []
                  fresh_room =
                (Panics (invalid_membership EmptyString),
                 room ∅ None [called_MembershipUpdater alice_NID]))
    by (rewrite H9; vm_compute; reflexivity).
  conjuncts; first [assumption | reflexivity].
Defined.

(** The claim C9 as the specification words it fails here: a membership
    event whose content has no [membership].  As the added event it brings
    [updateMembership] to the panic of the switch, where the claim has a
    parse error returned; as the removed event it is read as the membership
    with no name, and the change goes through with no error at all. *)
Lemma updateMembership_classification_counterexample :
  membership_absent blank_member_body ∧
  updateMembership alice_NID None (Some (event_of blank_member_body)) [] fresh_room =
    (Panics (invalid_membership EmptyString),
     room ∅ None [called_MembershipUpdater alice_NID]) ∧
  ¬ (∃ recs err w,
       updateMembership alice_NID None (Some (event_of blank_member_body)) [] fresh_room =
       (Returns (recs, Some err), w)) ∧
  updateMembership alice_NID (Some (event_of blank_member_body)) (Some invite_event) []
    fresh_room =
    (Returns ([new_invite_record invite_event "5"], None),
     room {[alice_NID := invited_row]} None
       [called_MembershipUpdater alice_NID; called_SetToInvite alice_NID "$invite"]).
Proof.
  assert (Hrun : updateMembership alice_NID None (Some (event_of blank_member_body)) []
                   fresh_room =
                 (Panics (invalid_membership EmptyString),
                  room ∅ None [called_MembershipUpdater alice_NID]))
    by (vm_compute; reflexivity).
  split; [by split|]. split; [exact Hrun|]. split.
  - intros (recs & err & w & Hreturns). rewrite Hrun in Hreturns. discriminate Hreturns.
  - vm_compute. reflexivity.
Qed.

(** Two participants in one delta.  With a store that serves no call the
    load fails.  With a store that works, the invite of the first participant
    goes through and yields a record; Alice's event then cannot be read, and
    the call returns the error and no record. *)
Lemma updateMemberships_all_or_nothing_witness :
  let added := [mkStateEntry alice_slot 16;
                mkStateEntry (mkStateKeyTuple sample_MRoomMemberNID 43) 11] in
  let loaded := room ∅ None [called_Events [11; 16]%Z] in
  let invited := room {[43%Z := invited_row]} None
                   [called_Events [11; 16]%Z; called_MembershipUpdater 43;
                    called_SetToInvite 43 "$invite"] in
  updateMemberships sample_MRoomMemberNID [] added (room ∅ (Some 0) []) =
    (Returns ([], Some store_error), room ∅ (Some 0) [called_Events [11; 16]%Z]) ∧
  updateMemberships_loop
    [types.mkEvent 11 invite_event; types.mkEvent 16 unreadable_event]
    [mkStateChange (mkStateKeyTuple sample_MRoomMemberNID 43) 0 11] [] loaded =
    (Returns ([new_invite_record invite_event "5"], None), invited) ∧
  updateMemberships sample_MRoomMemberNID [] added fresh_room =
    (Returns ([], Some unreadable_error), invited).
Proof.
  intros added loaded invited.
  destruct (updateMemberships_all_or_nothing sample_MRoomMemberNID [] added
              (room ∅ (Some 0) [])) as (Hload & _ & _).
  destruct (updateMemberships_all_or_nothing sample_MRoomMemberNID [] added
              fresh_room) as (_ & Hstep & _).
  assert (Hfirst : updateMemberships_loop
            [types.mkEvent 11 invite_event; types.mkEvent 16 unreadable_event]
            [mkStateChange (mkStateKeyTuple sample_MRoomMemberNID 43) 0 11] [] loaded =
            (Returns ([new_invite_record invite_event "5"], None), invited))
    by (vm_compute; reflexivity).
  pose proof (Hload store_error (room ∅ (Some 0) [called_Events [11; 16]%Z])
                ltac:(vm_compute; reflexivity)) as Hfailed.
  pose proof (Hstep
                [types.mkEvent 11 invite_event; types.mkEvent 16 unreadable_event]
                loaded
                [mkStateChange (mkStateKeyTuple sample_MRoomMemberNID 43) 0 11]
                (mkStateChange alice_slot 0 16) []
                [new_invite_record invite_event "5"] invited
                unreadable_error invited
                ltac:(vm_compute; reflexivity)
                ltac:(vm_compute; reflexivity)
                Hfirst
                ltac:(apply (added_unparsable _ _ _ _ gomatrixserverlib.Leave);
                      reflexivity)) as Haborted.
  conjuncts; assumption.
Defined.

(** A file data source, a postgres one, and one that does not parse. *)
Lemma NewDatabase_dispatch_witness :
  storage.NewDatabase_opens storage.sample_Parse "file:dendrite.db" 10
    = Ok (storage.opened_sqlite3 "file:dendrite.db") ∧
  storage.NewDatabase_opens storage.sample_Parse "postgres://dendrite@localhost/dendrite" 10
    = Ok (storage.opened_postgres "postgres://dendrite@localhost/dendrite" 10) ∧
  storage.NewDatabase_opens storage.sample_Parse "%zz" 10
    = Ok (storage.opened_postgres "%zz" 10).
Proof.
  destruct (NewDatabase_dispatch storage.sample_Parse "file:dendrite.db" 10)
    as (_ & Hfile & _).
  destruct (NewDatabase_dispatch storage.sample_Parse
              "postgres://dendrite@localhost/dendrite" 10)
    as (_ & _ & Hpostgres).
  destruct (NewDatabase_dispatch storage.sample_Parse "%zz" 10)
    as (_ & _ & Hunparsed).
  conjuncts.
  - apply Hfile. exists (storage.mkURL "file"). split; reflexivity.
  - apply Hpostgres. intros (uri & Hparse & Hscheme).
    vm_compute in Hparse. injection Hparse as <-. discriminate Hscheme.
  - apply Hunparsed. intros (uri & Hparse & _). discriminate Hparse.
Defined.

(** *** The further properties in the sample room *)

(** Alice's slot on both sides, with identifiers that are set. *)
Lemma pairUpChanges_some_side_witness :
  Forall (λ e, se_EventNID e ≠ 0%Z)
         ([mkStateEntry alice_slot 11] ++ [mkStateEntry alice_slot 12]) ∧
  Forall (λ c, removedEventNID c ≠ 0%Z ∨ addedEventNID c ≠ 0%Z)
         (pairUpChanges [mkStateEntry alice_slot 11] [mkStateEntry alice_slot 12]).
Proof.
  assert (Hset : Forall (λ e, se_EventNID e ≠ 0%Z)
                   ([mkStateEntry alice_slot 11] ++ [mkStateEntry alice_slot 12]))
    by (repeat constructor; discriminate).
  split; [exact Hset|].
  apply Forall_forall.
  apply (pairUpChanges_some_side
           [mkStateEntry alice_slot 11] [mkStateEntry alice_slot 12]).
  by apply Forall_forall.
Defined.

(** Two removed entries taken in either order. *)
Lemma pairUpChanges_unordered_witness :
  pairUpChanges
    [mkStateEntry alice_slot 11; mkStateEntry (mkStateKeyTuple 1 0) 3]
    [mkStateEntry alice_slot 12]
  ≡ₚ pairUpChanges
       [mkStateEntry (mkStateKeyTuple 1 0) 3; mkStateEntry alice_slot 11]
       [mkStateEntry alice_slot 12].
Proof.
  apply pairUpChanges_unordered.
  - apply (bool_decide_unpack _). vm_compute. exact I.
  - apply (bool_decide_unpack _). vm_compute. exact I.
  - apply perm_swap.
  - reflexivity.
Defined.

(** An invite that the store refuses: the record accumulated before is not
    handed back. *)
Lemma handlers_propagate_errors_witness :
  updateToInviteMembership alice_NID (Some invite_event)
    [new_invite_record invite_event "5"] "5" (room ∅ (Some 0) []) =
  (Returns ([], Some store_error),
   room ∅ (Some 0) [called_SetToInvite alice_NID "$invite"]).
Proof.
  destruct (handlers_propagate_errors alice_NID invite_event
              [new_invite_record invite_event "5"] "5" gomatrixserverlib.Leave
              store_error (room ∅ (Some 0) [])
              (room ∅ (Some 0) [called_SetToInvite alice_NID "$invite"]))
    as (Hinvite & _ & _).
  apply Hinvite. vm_compute. reflexivity.
Defined.

(** Alice, invited, joins by an event without a state key: the store records
    the join and retires the invite, and the handler panics. *)
Lemma retire_without_state_key_witness :
  let invited := room {[alice_NID := invited_row]} None [] in
  let joined :=
    room {[alice_NID := mkParticipant membershipStateJoin "$keyless" ["$invite"] []]}
         None [called_SetToJoin alice_NID alice "$keyless" false] in
  updateToJoinMembership alice_NID (Some keyless_join_event) [] invited =
  (Panics nil_dereference, joined).
Proof.
  intros invited joined.
  destruct (retire_without_state_key alice_NID keyless_join_event
              gomatrixserverlib.Join [] ["$invite"] invited joined eq_refl)
    as [Hjoin _].
  apply Hjoin; vm_compute; reflexivity.
Defined.

(** Alice's invite, through [updateMembership], from the fresh room. *)
Lemma updateMembership_appends_witness :
  let invited := room {[alice_NID := invited_row]} None
                   [called_MembershipUpdater alice_NID;
                    called_SetToInvite alice_NID "$invite"] in
  updateMembership alice_NID None (Some invite_event) [] fresh_room =
    (Returns ([new_invite_record invite_event "5"], None), invited) ∧
  ∃ appended,
    [new_invite_record invite_event "5"] = [] ++ appended ∧
    Forall (λ o, ∃ ae new, Some invite_event = Some ae ∧
                           gomatrixserverlib.Membership ae = Ok new ∧
                           appended_for ae new o) appended.
Proof.
  intros invited.
  assert (Hrun : updateMembership alice_NID None (Some invite_event) [] fresh_room =
                 (Returns ([new_invite_record invite_event "5"], None), invited))
    by (vm_compute; reflexivity).
  split; [exact Hrun|].
  exact (updateMembership_appends alice_NID None (Some invite_event) []
           [new_invite_record invite_event "5"] fresh_room invited Hrun).
Defined.

(** The one panic of the sample room: the membership "knock". *)
Lemma updateMembership_panics_only_witness :
  updateMembership alice_NID None (Some knock_event) [] fresh_room =
    (Panics (invalid_membership "knock"),
     room ∅ None [called_MembershipUpdater alice_NID]) ∧
  ∃ ae new,
    Some knock_event = Some ae ∧ gomatrixserverlib.Membership ae = Ok new ∧
    ((¬ known_membership new ∧ invalid_membership "knock" = invalid_membership new) ∨
     (known_membership new ∧ gomatrixserverlib.StateKey ae = None ∧
      invalid_membership "knock" = nil_dereference)).
Proof.
  assert (Hrun : updateMembership alice_NID None (Some knock_event) [] fresh_room =
                 (Panics (invalid_membership "knock"),
                  room ∅ None [called_MembershipUpdater alice_NID]))
    by (vm_compute; reflexivity).
  split; [exact Hrun|].
  exact (updateMembership_panics_only alice_NID None (Some knock_event) [] _
           fresh_room _ Hrun).
Defined.

(** Alice is invited: the record carries the room version of the updater. *)
Lemma updateMembership_invite_witness :
  let opened := room ∅ None [called_MembershipUpdater alice_NID] in
  let invited := room {[alice_NID := invited_row]} None
                   [called_MembershipUpdater alice_NID;
                    called_SetToInvite alice_NID "$invite"] in
  OpenMembershipUpdater alice_NID fresh_room = (Ok alice_NID, opened) ∧
  SetToInvite alice_NID invite_event opened = (Ok true, invited) ∧
  updateMembership alice_NID None (Some invite_event) [] fresh_room =
    (Returns ([new_invite_record invite_event "5"], None), invited).
Proof.
  intros opened invited.
  assert (Hopen : OpenMembershipUpdater alice_NID fresh_room = (Ok alice_NID, opened))
    by (vm_compute; reflexivity).
  assert (Hset : SetToInvite alice_NID invite_event opened = (Ok true, invited))
    by (vm_compute; reflexivity).
  pose proof (updateMembership_invite alice_NID None invite_event []
                gomatrixserverlib.Leave alice_NID true fresh_room opened invited
                eq_refl eq_refl ltac:(discriminate) Hopen Hset) as Hrun.
  conjuncts; assumption.
Defined.

(** Alice, invited, joins: her invite is retired. *)
Lemma updateMembership_join_witness :
  let invited := room {[alice_NID := invited_row]} None [] in
  let opened := room {[alice_NID := invited_row]} None
                  [called_MembershipUpdater alice_NID] in
  let joined := room {[alice_NID := joined_row]} None
                  [called_MembershipUpdater alice_NID;
                   called_SetToJoin alice_NID alice "$join" false] in
  updateMembership alice_NID (Some invite_event) (Some join_event) [] invited =
    (Returns ([retire_invite_record gomatrixserverlib.Join "$join" alice "$invite"],
              None), joined).
Proof.
  intros invited opened joined.
  assert (Hopen : OpenMembershipUpdater alice_NID invited = (Ok alice_NID, opened))
    by (vm_compute; reflexivity).
  assert (Hset : SetToJoin alice_NID (gomatrixserverlib.Sender join_event)
                   (gomatrixserverlib.EventID join_event)
                   (IsJoin alice_NID opened) opened = (Ok ["$invite"], joined))
    by (vm_compute; reflexivity).
  exact (updateMembership_join alice_NID (Some invite_event) join_event alice []
           gomatrixserverlib.Invite alice_NID ["$invite"] invited opened joined
           eq_refl eq_refl eq_refl Hopen Hset).
Defined.

(** Alice, invited, is banned: the retirement says ban. *)
Lemma updateMembership_leave_or_ban_witness :
  let invited := room {[alice_NID := invited_row]} None [] in
  let opened := room {[alice_NID := invited_row]} None
                  [called_MembershipUpdater alice_NID] in
  let banned := room {[alice_NID := banned_row]} None
                  [called_MembershipUpdater alice_NID;
                   called_SetToLeave alice_NID bob "$ban"] in
  updateMembership alice_NID (Some invite_event) (Some ban_event) [] invited =
    (Returns ([retire_invite_record gomatrixserverlib.Ban "$ban" alice "$invite"],
              None), banned).
Proof.
  intros invited opened banned.
  assert (Hopen : OpenMembershipUpdater alice_NID invited = (Ok alice_NID, opened))
    by (vm_compute; reflexivity).
  destruct (updateMembership_leave_or_ban alice_NID (Some invite_event) ban_event
              alice [] gomatrixserverlib.Invite gomatrixserverlib.Ban alice_NID
              ["$invite"] invited opened banned
              eq_refl eq_refl (or_intror eq_refl) ltac:(discriminate) eq_refl Hopen)
    as [_ Hban].
  apply Hban; vm_compute; reflexivity.
Defined.

(** The record of Alice's invite, out of a whole reconciliation. *)
Lemma updateMemberships_records_witness :
  let invited := room {[alice_NID := invited_row]} None
                   [called_Events [11%Z]; called_MembershipUpdater alice_NID;
                    called_SetToInvite alice_NID "$invite"] in
  updateMemberships sample_MRoomMemberNID [] [mkStateEntry alice_slot 11] fresh_room =
    (Returns ([new_invite_record invite_event "5"], None), invited) ∧
  Forall well_formed_record [new_invite_record invite_event "5"].
Proof.
  intros invited.
  assert (Hrun : updateMemberships sample_MRoomMemberNID []
                   [mkStateEntry alice_slot 11] fresh_room =
                 (Returns ([new_invite_record invite_event "5"], None), invited))
    by (vm_compute; reflexivity).
  split; [exact Hrun|].
  exact (updateMemberships_records sample_MRoomMemberNID [] [mkStateEntry alice_slot 11]
           _ fresh_room invited Hrun).
Defined.

(** A delta that only changes a state of another event type: the store sees
    an empty load and nothing else. *)
Lemma updateMemberships_without_membership_witness :
  updateMemberships sample_MRoomMemberNID
    [mkStateEntry (mkStateKeyTuple 1 0) 2] [mkStateEntry (mkStateKeyTuple 1 0) 3]
    fresh_room =
  (Returns ([], None), room ∅ None [called_Events []]).
Proof.
  rewrite (updateMemberships_without_membership sample_MRoomMemberNID
             [mkStateEntry (mkStateKeyTuple 1 0) 2]
             [mkStateEntry (mkStateKeyTuple 1 0) 3] fresh_room).
  - vm_compute. reflexivity.
  - intros e He. apply Forall_forall with (x := e) (P := λ e,
      skt_EventTypeNID (se_StateKeyTuple e) ≠ sample_MRoomMemberNID) in He; [done|].
    repeat constructor; discriminate.
Defined.

(** Alice is invited, nothing is removed: the load asks for the invite and
    not for the identifier [0] of the side that is not set. *)
Lemma updateMemberships_loads_witness :
  collect_eventNIDs
    (membershipChanges sample_MRoomMemberNID [] [mkStateEntry alice_slot 11]) = [11%Z] ∧
  (11%Z ∈ collect_eventNIDs
            (membershipChanges sample_MRoomMemberNID [] [mkStateEntry alice_slot 11])) ∧
  ¬ (0%Z ∈ collect_eventNIDs
             (membershipChanges sample_MRoomMemberNID [] [mkStateEntry alice_slot 11])) ∧
  calls (updateMemberships sample_MRoomMemberNID [] [mkStateEntry alice_slot 11]
           fresh_room).2 =
    [called_Events [11%Z]; called_MembershipUpdater alice_NID;
     called_SetToInvite alice_NID "$invite"].
Proof.
  destruct (updateMemberships_loads sample_MRoomMemberNID [] [mkStateEntry alice_slot 11]
              fresh_room) as [Hrun Hids].
  split; [vm_compute; reflexivity|]. split; [|split].
  - apply Hids. split; [discriminate|].
    exists (mkStateChange alice_slot 0 11). split; [|by left].
    vm_compute. left.
  - intros [Hzero _]%Hids. by apply Hzero.
  - rewrite Hrun. vm_compute. reflexivity.
Defined.
